(** * The meme canvas compositor of [index.tsx]

    A shallow embedding of the canvas logic of the meme editor: the module-level
    state ([image], [topText], [fontSize], the two text anchors, the drag
    session, the canvas), the functions [resetTextPositions], [redrawCanvas],
    [setBaseImage], [isMouseOverText], [triggerMemeDownload],
    [getCanvasCoordinates], [handleDragStart], [handleDragMove],
    [handleDragEnd], and the listeners that call them.

    Numbers.  A JavaScript number is modelled by [number]: an exact rational, or
    one of the three special values [+Infinity], [-Infinity] and [NaN], with the
    IEEE 754 rules for the special values (division by zero, [0 * Infinity],
    comparisons with [NaN], ...).  Rounding to 53 bits is not modelled, so
    [0.5 + 20/400] is exactly [0.55], and a zero has no sign: a zero divisor
    behaves as [+0], which is what the sizes handed out by the DOM give.

    Host objects.  The canvas is a record that holds the width and height
    assigned to it (the element's conversion of its size to an integer is not
    modelled) and the drawing calls issued since its size was last assigned.
    What the platform computes ([String.prototype.toUpperCase],
    [ctx.measureText], [canvas.toDataURL]) is a parameter of the development. *)

From Stdlib Require Import List Bool ZArith NArith QArith Qcanon String Ascii Lia.
From Stdlib Require Import DecimalString.
Import ListNotations.

(* ------------------------------------------------------------------------- *)
(** ** JavaScript numbers *)

Module Num.

Inductive number : Type :=
| Fin (q : Qc)
| PInf
| NInf
| NaN.

Definition zero : number := Fin (Q2Qc 0).

(** [lit n d] is the literal [n/d]. *)
Definition lit (n : Z) (d : positive) : number := Fin (Q2Qc (n # d)).

Definition of_Z (n : Z) : number := lit n 1.

Definition neg (a : number) : number :=
  match a with
  | Fin x => Fin (- x)%Qc
  | PInf => NInf
  | NInf => PInf
  | NaN => NaN
  end.

(** [a + b] *)
Definition add (a b : number) : number :=
  match a, b with
  | NaN, _ | _, NaN => NaN
  | Fin x, Fin y => Fin (x + y)%Qc
  | PInf, NInf | NInf, PInf => NaN
  | PInf, _ | _, PInf => PInf
  | NInf, _ | _, NInf => NInf
  end.

(** [a - b] *)
Definition sub (a b : number) : number := add a (neg b).

(** The infinity whose sign is that of [x], [NaN] for zero. *)
Definition inf_of_sign (x : Qc) (pos : number) (negv : number) : number :=
  match (x ?= Q2Qc 0)%Qc with
  | Gt => pos
  | Lt => negv
  | Eq => NaN
  end.

(** [a * b] *)
Definition mul (a b : number) : number :=
  match a, b with
  | NaN, _ | _, NaN => NaN
  | Fin x, Fin y => Fin (x * y)%Qc
  | Fin x, PInf | PInf, Fin x => inf_of_sign x PInf NInf
  | Fin x, NInf | NInf, Fin x => inf_of_sign x NInf PInf
  | PInf, PInf | NInf, NInf => PInf
  | PInf, NInf | NInf, PInf => NInf
  end.

(** [a / b]; a zero divisor is [+0]. *)
Definition div (a b : number) : number :=
  match a, b with
  | NaN, _ | _, NaN => NaN
  | Fin x, Fin y =>
      match (y ?= Q2Qc 0)%Qc with
      | Eq => inf_of_sign x PInf NInf
      | _ => Fin (x / y)%Qc
      end
  | Fin _, (PInf | NInf) => zero
  | (PInf | NInf), (PInf | NInf) => NaN
  | PInf, Fin y => match (y ?= Q2Qc 0)%Qc with Lt => NInf | _ => PInf end
  | NInf, Fin y => match (y ?= Q2Qc 0)%Qc with Lt => PInf | _ => NInf end
  end.

(** [a <= b]: false as soon as one side is [NaN]. *)
Definition leb (a b : number) : bool :=
  match a, b with
  | NaN, _ | _, NaN => false
  | Fin x, Fin y => match (x ?= y)%Qc with Gt => false | _ => true end
  | NInf, _ | _, PInf => true
  | PInf, _ | _, NInf => false
  end.

(** [a >= b] *)
Definition geb (a b : number) : bool := leb b a.

(** [Math.min(a, b)]: [NaN] as soon as one argument is [NaN]. *)
Definition Math_min (a b : number) : number :=
  match a, b with
  | NaN, _ | _, NaN => NaN
  | _, _ => if leb a b then a else b
  end.

(** [!a] on a number: zero and [NaN] are falsy. *)
Definition falsy (a : number) : bool :=
  match a with
  | Fin x => if Qc_eq_dec x (Q2Qc 0) then true else false
  | NaN => true
  | PInf | NInf => false
  end.

(** The order [a <= b] as a proposition; nothing is related to [NaN]. *)
Definition le (a b : number) : Prop :=
  match a, b with
  | NaN, _ | _, NaN => False
  | Fin x, Fin y => (x <= y)%Qc
  | NInf, _ | _, PInf => True
  | PInf, _ | _, NInf => False
  end.


End Num.

Export Num.

Declare Scope num_scope.
Delimit Scope num_scope with num.
Bind Scope num_scope with number.
Infix "+" := add : num_scope.
Infix "-" := sub : num_scope.
Infix "*" := mul : num_scope.
Infix "/" := div : num_scope.
Infix "<=?" := leb : num_scope.
Infix ">=?" := geb : num_scope.
Infix "<=" := le : num_scope.

Local Open Scope num_scope.

(** Number literals of the source. *)
Definition n0_5 : number := lit 1 2.     (* 0.5 *)
Definition n1_2 : number := lit 6 5.     (* 1.2 *)
Definition n0_4 : number := lit 2 5.     (* 0.4 *)
Definition n0_2 : number := lit 1 5.     (* 0.2 *)
Definition n2 : number := of_Z 2.
Definition n15 : number := of_Z 15.
Definition n40 : number := of_Z 40.

(* ------------------------------------------------------------------------- *)
(** ** JavaScript strings *)

(** A string is its sequence of UTF-16 code units. *)
Definition jsstring : Type := list N.

(** The code units of an ASCII literal. *)
Fixpoint js (s : string) : jsstring :=
  match s with
  | EmptyString => []
  | String c r => N_of_ascii c :: js r
  end.

(** The code units that [trim] strips: WhiteSpace and LineTerminator of
    ECMA-262 (TAB, LF, VT, FF, CR, SP, NBSP, the Unicode space separators,
    LS, PS and the byte order mark). *)
Definition isWhiteSpace (c : N) : bool :=
  ((9 <=? c) && (c <=? 13) || (c =? 32) || (c =? 160) || (c =? 5760)
   || (8192 <=? c) && (c <=? 8202) || (c =? 8232) || (c =? 8233)
   || (c =? 8239) || (c =? 8287) || (c =? 12288) || (c =? 65279))%N.

Fixpoint trimStart (s : jsstring) : jsstring :=
  match s with
  | [] => []
  | c :: r => if isWhiteSpace c then trimStart r else s
  end.

Definition trimEnd (s : jsstring) : jsstring := rev (trimStart (rev s)).

(** [s.trim()] *)
Definition trim (s : jsstring) : jsstring := trimEnd (trimStart s).

(** [s === ''] *)
Definition is_empty (s : jsstring) : bool :=
  match s with [] => true | _ :: _ => false end.

(* ------------------------------------------------------------------------- *)
(** ** Host objects *)

(** A decoded [HTMLImageElement]. *)
Module HTMLImageElement.
Record t : Type := mk { src : jsstring; width : number; height : number }.
End HTMLImageElement.

(** The state of the 2D context a text drawing call is issued under. *)
Inductive TextAlign := AlignStart | AlignCenter.
Inductive LineJoin := JoinMiter | JoinRound.

Record TextStyle : Type := {
  fillStyle : jsstring;
  strokeStyle : jsstring;
  lineWidth : number;
  fontPx : number;           (* ctx.font = `bold ${fontPx}px Impact` *)
  textAlign : TextAlign;
  lineJoin : LineJoin
}.

(** The drawing calls of [redrawCanvas] and [setBaseImage]. *)
Inductive DrawCmd : Type :=
| clearRect (x y w h : number)
| drawImage (img : HTMLImageElement.t) (x y w h : number)
| strokeText (st : TextStyle) (text : jsstring) (x y : number)
| fillText (st : TextStyle) (text : jsstring) (x y : number).

(** The canvas element with its bitmap, the latter as the calls drawn on it
    since its size was last assigned (assigning a size clears the bitmap). *)
Module HTMLCanvasElement.
Record t : Type := mk { width : number; height : number; drawn : list DrawCmd }.

(** [canvas.width = w] *)
Definition set_width (w : number) (c : t) : t := mk w (height c) [].
(** [canvas.height = h] *)
Definition set_height (h : number) (c : t) : t := mk (width c) h [].
(** a call on the canvas's context *)
Definition draw (cmd : DrawCmd) (c : t) : t :=
  mk (width c) (height c) (drawn c ++ [cmd]).
End HTMLCanvasElement.

(** [canvas.getBoundingClientRect()] *)
Module DOMRect.
Record t : Type := mk { left : number; top : number; width : number; height : number }.
End DOMRect.

(** What a handler reads from the page when it runs: whether
    [canvas.getContext('2d')] gave a context, the [clientWidth] of the canvas
    container, and the canvas's bounding rectangle. *)
Record Dom : Type := {
  ctx : bool;
  clientWidth : number;
  rect : DOMRect.t
}.

(* ------------------------------------------------------------------------- *)
(** ** The module state *)

Record ImageData : Type := { id : Z; data_src : jsstring }.

Record Position : Type := { rx : number; ry : number }.

Inductive TextId : Type := top | bottom.

Inductive Cursor : Type := cursor_default | cursor_move.

Record State : Type := {
  image : option HTMLImageElement.t;
  uploadedImages : list ImageData;
  nextImageId : Z;
  baseImageId : option Z;
  sourceImageIds : list Z;
  topText : jsstring;
  bottomText : jsstring;
  fontSize : number;
  textColor : jsstring;
  topTextPosition : option Position;
  bottomTextPosition : option Position;
  isDragging : bool;
  draggingText : option TextId;
  dragStartX : number;
  dragStartY : number;
  canvas : HTMLCanvasElement.t;
  cursor : Cursor                  (* canvas.style.cursor *)
}.

(** The state when the module has been loaded. *)
Definition initial : State := {|
  image := None;
  uploadedImages := [];
  nextImageId := 0;
  baseImageId := None;
  sourceImageIds := [];
  topText := [];
  bottomText := [];
  fontSize := n40;
  textColor := js "#ffffff";
  topTextPosition := None;
  bottomTextPosition := None;
  isDragging := false;
  draggingText := None;
  dragStartX := zero;
  dragStartY := zero;
  canvas := HTMLCanvasElement.mk (of_Z 300) (of_Z 150) [];  (* no size attributes *)
  cursor := cursor_default
|}.

(** Assignments to the module variables. *)
Definition set_image v (s : State) :=
  let '(Build_State _ b c d e f g h i j k l m n o p q) := s in
  Build_State v b c d e f g h i j k l m n o p q.
Definition set_uploadedImages v (s : State) :=
  let '(Build_State a _ c d e f g h i j k l m n o p q) := s in
  Build_State a v c d e f g h i j k l m n o p q.
Definition set_nextImageId v (s : State) :=
  let '(Build_State a b _ d e f g h i j k l m n o p q) := s in
  Build_State a b v d e f g h i j k l m n o p q.
Definition set_baseImageId v (s : State) :=
  let '(Build_State a b c _ e f g h i j k l m n o p q) := s in
  Build_State a b c v e f g h i j k l m n o p q.
Definition set_sourceImageIds v (s : State) :=
  let '(Build_State a b c d _ f g h i j k l m n o p q) := s in
  Build_State a b c d v f g h i j k l m n o p q.
Definition set_topText v (s : State) :=
  let '(Build_State a b c d e _ g h i j k l m n o p q) := s in
  Build_State a b c d e v g h i j k l m n o p q.
Definition set_bottomText v (s : State) :=
  let '(Build_State a b c d e f _ h i j k l m n o p q) := s in
  Build_State a b c d e f v h i j k l m n o p q.
Definition set_fontSize v (s : State) :=
  let '(Build_State a b c d e f g _ i j k l m n o p q) := s in
  Build_State a b c d e f g v i j k l m n o p q.
Definition set_textColor v (s : State) :=
  let '(Build_State a b c d e f g h _ j k l m n o p q) := s in
  Build_State a b c d e f g h v j k l m n o p q.
Definition set_topTextPosition v (s : State) :=
  let '(Build_State a b c d e f g h i _ k l m n o p q) := s in
  Build_State a b c d e f g h i v k l m n o p q.
Definition set_bottomTextPosition v (s : State) :=
  let '(Build_State a b c d e f g h i j _ l m n o p q) := s in
  Build_State a b c d e f g h i j v l m n o p q.
Definition set_isDragging v (s : State) :=
  let '(Build_State a b c d e f g h i j k _ m n o p q) := s in
  Build_State a b c d e f g h i j k v m n o p q.
Definition set_draggingText v (s : State) :=
  let '(Build_State a b c d e f g h i j k l _ n o p q) := s in
  Build_State a b c d e f g h i j k l v n o p q.
Definition set_dragStartX v (s : State) :=
  let '(Build_State a b c d e f g h i j k l m _ o p q) := s in
  Build_State a b c d e f g h i j k l m v o p q.
Definition set_dragStartY v (s : State) :=
  let '(Build_State a b c d e f g h i j k l m n _ p q) := s in
  Build_State a b c d e f g h i j k l m n v p q.
Definition set_canvas v (s : State) :=
  let '(Build_State a b c d e f g h i j k l m n o _ q) := s in
  Build_State a b c d e f g h i j k l m n o v q.
Definition set_cursor v (s : State) :=
  let '(Build_State a b c d e f g h i j k l m n o p _) := s in
  Build_State a b c d e f g h i j k l m n o p v.


(* ------------------------------------------------------------------------- *)
(** ** The canvas logic *)

(** What a click on the download link hands to the browser. *)
Record Download : Type := { href : jsstring; download : jsstring }.

Definition is_none {A : Type} (o : option A) : bool :=
  match o with None => true | Some _ => false end.

Section Compositor.

(** [s.toUpperCase()] *)
Variable toUpperCase : jsstring -> jsstring.

(** [ctx.measureText(text).width] under the font [bold ${px}px Impact]. *)
Variable measureText : number -> jsstring -> number.

(** [canvas.toDataURL(type)] *)
Variable toDataURL : HTMLCanvasElement.t -> jsstring -> jsstring.

(** The default anchors for the current canvas height. *)
Definition defaultTop (s : State) : Position :=
  {| rx := n0_5;
     ry := (fontSize s * n1_2) / HTMLCanvasElement.height (canvas s) |}.

Definition defaultBottom (s : State) : Position :=
  {| rx := n0_5;
     ry := (HTMLCanvasElement.height (canvas s) - (fontSize s * n0_4))
           / HTMLCanvasElement.height (canvas s) |}.

Definition resetTextPositions (d : Dom) (s : State) : State :=
  if negb (ctx d) || is_none (image s)
     || falsy (HTMLCanvasElement.width (canvas s))
     || falsy (HTMLCanvasElement.height (canvas s))
  then s
  else set_bottomTextPosition (Some (defaultBottom s))
         (set_topTextPosition (Some (defaultTop s)) s).

(** [scale] of [redrawCanvas]. *)
Definition scaleOf (canvasWidth : number) (img : HTMLImageElement.t) : number :=
  Math_min (canvasWidth / HTMLImageElement.width img)
           (canvasWidth / HTMLImageElement.height img).

(** The context state [redrawCanvas] sets up before it draws the texts. *)
Definition textStyle (s : State) : TextStyle :=
  {| fillStyle := textColor s;
     strokeStyle := js "black";
     lineWidth := fontSize s / n15;
     fontPx := fontSize s;
     textAlign := AlignCenter;
     lineJoin := JoinRound |}.

(** The drawing calls of [redrawCanvas], in the order they are issued. *)
Definition drawCalls (img : HTMLImageElement.t) (tp bp : Position) (s : State)
  : list DrawCmd :=
  let w := HTMLCanvasElement.width (canvas s) in
  let h := HTMLCanvasElement.height (canvas s) in
  let topX := rx tp * w in
  let topY := ry tp * h in
  let bottomX := rx bp * w in
  let bottomY := ry bp * h in
  [ clearRect zero zero w h;
    drawImage img zero zero w h;
    strokeText (textStyle s) (toUpperCase (topText s)) topX topY;
    fillText (textStyle s) (toUpperCase (topText s)) topX topY;
    strokeText (textStyle s) (toUpperCase (bottomText s)) bottomX bottomY;
    fillText (textStyle s) (toUpperCase (bottomText s)) bottomX bottomY ].

Definition redrawCanvas (d : Dom) (s : State) : State :=
  match ctx d, image s with
  | true, Some img =>
      let canvasWidth := clientWidth d in
      let scale := scaleOf canvasWidth img in
      let imgWidth := HTMLImageElement.width img * scale in
      let imgHeight := HTMLImageElement.height img * scale in
      let s1 := set_canvas (HTMLCanvasElement.set_width imgWidth (canvas s)) s in
      let s2 := set_canvas (HTMLCanvasElement.set_height imgHeight (canvas s1)) s1 in
      let s3 := if is_none (topTextPosition s2) then resetTextPositions d s2 else s2 in
      match topTextPosition s3, bottomTextPosition s3 with
      | Some tp, Some bp =>
          set_canvas
            (fold_left (fun c cmd => HTMLCanvasElement.draw cmd c)
                       (drawCalls img tp bp s3) (canvas s3))
            s3
      | _, _ => s3
      end
  | _, _ => s
  end.

(** [setBaseImage(null)] *)
Definition setBaseImage_null (d : Dom) (s : State) : State :=
  let s1 := set_image None (set_baseImageId None s) in
  let c := canvas s1 in
  let c1 := if ctx d
            then HTMLCanvasElement.draw
                   (clearRect zero zero (HTMLCanvasElement.width c)
                              (HTMLCanvasElement.height c)) c
            else c in
  set_canvas (HTMLCanvasElement.set_height zero
                (HTMLCanvasElement.set_width zero c1)) s1.

(** [setBaseImage(imageData)] up to the start of the decoding. *)
Definition setBaseImage_start (imageData : ImageData) (s : State) : State :=
  let s1 := set_baseImageId (Some (id imageData)) s in
  set_sourceImageIds
    (filter (fun i => negb (Z.eqb i (id imageData))) (sourceImageIds s1)) s1.

(** [newImage.onload] of [setBaseImage]: the decoded image becomes the base
    image. *)
Definition setBaseImage_onload (newImage : HTMLImageElement.t) (d : Dom) (s : State)
  : State :=
  redrawCanvas d (set_topTextPosition None (set_image (Some newImage) s)).

Definition isMouseOverText (d : Dom) (s : State) (mouseX mouseY : number)
  (text : jsstring) (textRelPos : option Position) : bool :=
  match textRelPos with
  | Some p =>
      if negb (ctx d) || is_empty (trim text) then false
      else
        let x := rx p * HTMLCanvasElement.width (canvas s) in
        let y := ry p * HTMLCanvasElement.height (canvas s) in
        let textWidth := measureText (fontSize s) (toUpperCase text) in
        let textHeight := fontSize s in
        let textLeft := x - textWidth / n2 in
        let textRight := x + textWidth / n2 in
        let textTop := y - textHeight in
        let textBottom := y + (textHeight * n0_2) in
        (mouseX >=? textLeft) && (mouseX <=? textRight)
        && (mouseY >=? textTop) && (mouseY <=? textBottom)
  | None => false
  end.

Definition triggerMemeDownload (s : State) : bool * option Download :=
  match image s with
  | None => (false, None)
  | Some _ =>
      (true, Some {| href := toDataURL (canvas s) (js "image/png");
                     download := js "memehub-meme.png" |})
  end.

(** The click on the remix button. *)
Definition remix (d : Dom) (s : State) : State :=
  let s := setBaseImage_null d s in
  let s := set_uploadedImages [] s in
  let s := set_nextImageId 0%Z s in
  let s := set_sourceImageIds [] s in
  let s := set_topText [] s in
  let s := set_bottomText [] s in
  let s := set_topTextPosition None s in
  set_bottomTextPosition None s.

Definition getCanvasCoordinates (d : Dom) (s : State) (clientX clientY : number)
  : number * number :=
  let scaleX := HTMLCanvasElement.width (canvas s) / DOMRect.width (rect d) in
  let scaleY := HTMLCanvasElement.height (canvas s) / DOMRect.height (rect d) in
  ((clientX - DOMRect.left (rect d)) * scaleX,
   (clientY - DOMRect.top (rect d)) * scaleY).

Definition startDrag (which : TextId) (mouseX mouseY : number) (s : State) : State :=
  set_dragStartY mouseY
    (set_dragStartX mouseX
       (set_draggingText (Some which) (set_isDragging true s))).

Definition handleDragStart (d : Dom) (s : State) (clientX clientY : number) : State :=
  match topTextPosition s, bottomTextPosition s with
  | Some _, Some _ =>
      let '(mouseX, mouseY) := getCanvasCoordinates d s clientX clientY in
      if isMouseOverText d s mouseX mouseY (topText s) (topTextPosition s)
      then startDrag top mouseX mouseY s
      else if isMouseOverText d s mouseX mouseY (bottomText s) (bottomTextPosition s)
      then startDrag bottom mouseX mouseY s
      else s
  | _, _ => s
  end.

(** [p.rx += dx / canvas.width; p.ry += dy / canvas.height] *)
Definition moveBy (dx dy : number) (c : HTMLCanvasElement.t) (p : Position) : Position :=
  {| rx := rx p + dx / HTMLCanvasElement.width c;
     ry := ry p + dy / HTMLCanvasElement.height c |}.

Definition handleDragMove (d : Dom) (s : State) (clientX clientY : number) : State :=
  let '(mouseX, mouseY) := getCanvasCoordinates d s clientX clientY in
  let s1 :=
    set_cursor
      (if isDragging s
          || isMouseOverText d s mouseX mouseY (topText s) (topTextPosition s)
          || isMouseOverText d s mouseX mouseY (bottomText s) (bottomTextPosition s)
       then cursor_move else cursor_default) s in
  match isDragging s1, topTextPosition s1, bottomTextPosition s1 with
  | true, Some tp, Some bp =>
      let dx := mouseX - dragStartX s1 in
      let dy := mouseY - dragStartY s1 in
      let s2 :=
        match draggingText s1 with
        | Some top => set_topTextPosition (Some (moveBy dx dy (canvas s1) tp)) s1
        | Some bottom => set_bottomTextPosition (Some (moveBy dx dy (canvas s1) bp)) s1
        | None => s1
        end in
      redrawCanvas d (set_dragStartY mouseY (set_dragStartX mouseX s2))
  | _, _, _ => s1
  end.

Definition handleDragEnd (s : State) : State :=
  if isDragging s
  then set_cursor cursor_default (set_draggingText None (set_isDragging false s))
  else s.

(** ** Events *)

(** What the listeners of the page react to. *)
Inductive Event : Type :=
| ImageSelected (imageData : ImageData)          (* setBaseImage(imageData) *)
| ImageDecoded (newImage : HTMLImageElement.t)   (* newImage.onload *)
| ImageRemoved                                   (* setBaseImage(null) *)
| TopTextInput (value : jsstring)
| BottomTextInput (value : jsstring)
| FontSizeInput (value : number)
| TextColorInput (value : jsstring)
| PointerDown (clientX clientY : number)         (* mousedown, touchstart *)
| PointerMove (clientX clientY : number)         (* mousemove, touchmove *)
| PointerUp                       (* mouseup, mouseout, touchend, touchcancel *)
| Resize                                         (* window resize *)
| Remix.

Definition step (d : Dom) (s : State) (e : Event) : State :=
  match e with
  | ImageSelected imageData => setBaseImage_start imageData s
  | ImageDecoded newImage => setBaseImage_onload newImage d s
  | ImageRemoved => setBaseImage_null d s
  | TopTextInput v => redrawCanvas d (set_topText v s)
  | BottomTextInput v => redrawCanvas d (set_bottomText v s)
  | FontSizeInput v => redrawCanvas d (set_fontSize v s)
  | TextColorInput v => redrawCanvas d (set_textColor v s)
  | PointerDown x y => handleDragStart d s x y
  | PointerMove x y => handleDragMove d s x y
  | PointerUp => handleDragEnd s
  | Resize => redrawCanvas d s
  | Remix => remix d s
  end.

(** A run of events, each with what the page looks like when it is handled. *)
Definition run (es : list (Dom * Event)) (s : State) : State :=
  fold_left (fun s de => step (fst de) s (snd de)) es s.

(** The bounding box of an overlay in the words of the specification: centred
    horizontally on the anchor's pixel position, half the measured width of the
    uppercased text to each side, and reaching from [anchorY - fontSizePx] to
    [anchorY + fontSizePx * 0.2], the edges included. *)
Definition pointer_in_box (s : State) (text : jsstring) (p : Position)
  (mouseX mouseY : number) : Prop :=
  let anchorX := rx p * HTMLCanvasElement.width (canvas s) in
  let anchorY := ry p * HTMLCanvasElement.height (canvas s) in
  let textWidth := measureText (fontSize s) (toUpperCase text) in
  let fontSizePx := fontSize s in
  anchorX - textWidth / n2 <= mouseX /\ mouseX <= anchorX + textWidth / n2
  /\ anchorY - fontSizePx <= mouseY /\ mouseY <= anchorY + fontSizePx * n0_2.

End Compositor.

(* ------------------------------------------------------------------------- *)
(** ** Notions of the specification *)

(** The canvas size [redrawCanvas] assigns. *)
Definition scaledWidth (d : Dom) (img : HTMLImageElement.t) : number :=
  HTMLImageElement.width img * scaleOf (clientWidth d) img.

Definition scaledHeight (d : Dom) (img : HTMLImageElement.t) : number :=
  HTMLImageElement.height img * scaleOf (clientWidth d) img.

(** The overlay anchor of a text. *)
Definition anchor (which : TextId) (s : State) : option Position :=
  match which with
  | top => topTextPosition s
  | bottom => bottomTextPosition s
  end.

(** The other overlay. *)
Definition other (which : TextId) : TextId :=
  match which with top => bottom | bottom => top end.

(** What [redrawCanvas] never assigns: the image, the texts, the styles, the
    drag session and the image tray. *)
Definition same_content (s s' : State) : Prop :=
  image s' = image s
  /\ uploadedImages s' = uploadedImages s
  /\ nextImageId s' = nextImageId s
  /\ baseImageId s' = baseImageId s
  /\ sourceImageIds s' = sourceImageIds s
  /\ topText s' = topText s
  /\ bottomText s' = bottomText s
  /\ fontSize s' = fontSize s
  /\ textColor s' = textColor s
  /\ isDragging s' = isDragging s
  /\ draggingText s' = draggingText s
  /\ dragStartX s' = dragStartX s
  /\ dragStartY s' = dragStartY s
  /\ cursor s' = cursor s.


(* ------------------------------------------------------------------------- *)
(** ** Deciding equations between numbers *)

(** Equality of numbers, decided. *)
Definition number_eqb (a b : number) : bool :=
  match a, b with
  | Fin x, Fin y => Qc_eq_bool x y
  | PInf, PInf | NInf, NInf | NaN, NaN => true
  | _, _ => false
  end.

Definition Position_eqb (p q : Position) : bool :=
  number_eqb (rx p) (rx q) && number_eqb (ry p) (ry q).

Definition anchor_eqb (o o' : option Position) : bool :=
  match o, o' with
  | Some p, Some q => Position_eqb p q
  | None, None => true
  | _, _ => false
  end.

(* ------------------------------------------------------------------------- *)
(** ** Sample pages *)

(** A platform to evaluate the handlers on: ASCII upper-casing, glyphs half an
    em wide, and a data URL that only names its type. *)
Definition sampleUpperCase (s : jsstring) : jsstring :=
  map (fun c => if (97 <=? c)%N && (c <=? 122)%N then (c - 32)%N else c) s.

Definition sampleMeasureText (px : number) (text : jsstring) : number :=
  (px * of_Z (Z.of_nat (List.length text))) / n2.

Definition sampleToDataURL (c : HTMLCanvasElement.t) (type : jsstring) : jsstring :=
  js "data:" ++ type ++ js ";base64,".

(** A page whose container is [cw] wide and shows the canvas at [w] by [h],
    with its corner at the origin. *)
Definition page (cw w h : Z) : Dom :=
  {| ctx := true;
     clientWidth := of_Z cw;
     rect := DOMRect.mk zero zero (of_Z w) (of_Z h) |}.

Definition img800x400 : HTMLImageElement.t :=
  HTMLImageElement.mk (js "data:image/png;base64,wide") (of_Z 800) (of_Z 400).

Definition img400x400 : HTMLImageElement.t :=
  HTMLImageElement.mk (js "data:image/png;base64,square") (of_Z 400) (of_Z 400).

Definition sampleStep := step sampleUpperCase sampleMeasureText.
Definition sampleRun := run sampleUpperCase sampleMeasureText.

(** The square image on a 400 by 400 canvas, with the top text "hi" anchored
    at [(0.5, 0.1)] and the bottom text "yo" at its default anchor. *)
Definition square400 : State :=
  set_topTextPosition (Some {| rx := n0_5; ry := lit 1 10 |})
    (sampleRun [ (page 400 400 400, ImageDecoded img400x400);
                 (page 400 400 400, TopTextInput (js "hi"));
                 (page 400 400 400, BottomTextInput (js "yo")) ]
               initial).

Definition page400 : Dom := page 400 400 400.

(** The wide image before its first render. *)
Definition wideLoaded : State := set_image (Some img800x400) initial.

(** The pointer goes down on the top text of [square400] and moves right by 10
    pixels, twice. *)
Definition down400 : State :=
  sampleStep page400 square400 (PointerDown (of_Z 200) (of_Z 40)).
Definition moved1 : State :=
  handleDragMove sampleUpperCase sampleMeasureText page400 down400 (of_Z 210) (of_Z 40).
Definition moved2 : State :=
  handleDragMove sampleUpperCase sampleMeasureText page400 moved1 (of_Z 220) (of_Z 40).


(** [square400] with a top text of one space. *)
Definition blank400 : State := set_topText (js " ") square400.


(** [square400] with a font size of 60 and red text. *)
Definition styled400 : State :=
  sampleRun [ (page400, FontSizeInput (of_Z 60));
              (page400, TextColorInput (js "#ff0000")) ] square400.

(** The wide image rendered in a container of width 400, and the page with the
    container collapsed to width zero. *)
Definition wideRendered : State :=
  sampleStep (page 400 400 200) initial (ImageDecoded img800x400).
Definition page0 : Dom := page 0 400 200.

(** A text of a space, a tab and a no-break space. *)
Definition spaces : jsstring := [32; 9; 160]%N.

(* ------------------------------------------------------------------------- *)
(** ** Runs of the editor *)

(** The listeners that assign the value of a control and render again, and the
    resize listener. *)
Definition is_edit (e : Event) : bool :=
  match e with
  | TopTextInput _ | BottomTextInput _ | FontSizeInput _ | TextColorInput _
  | Resize => true
  | _ => false
  end.

Definition is_move (e : Event) : bool :=
  match e with
  | PointerMove _ _ => true
  | _ => false
  end.

(** The pointer moves through the client positions [pts] on the page [d]. *)
Definition moves (d : Dom) (pts : list (number * number)) : list (Dom * Event) :=
  map (fun p => (d, PointerMove (fst p) (snd p))) pts.

(** What the guards of the drag handlers rely on: a top anchor comes with a
    bottom anchor, and a drag is active exactly when it has a target. *)
Definition session_ok (s : State) : Prop :=
  (topTextPosition s <> None -> bottomTextPosition s <> None)
  /\ (isDragging s = true <-> draggingText s <> None).



(** The three steps of [redrawCanvas] once it has a context and an image: the
    canvas gets its size, the anchors are placed when there is no top anchor,
    and the image and the texts are drawn when both anchors are there. *)
Definition sizeCanvas (d : Dom) (img : HTMLImageElement.t) (s : State) : State :=
  set_canvas
    (HTMLCanvasElement.mk (scaledWidth d img) (scaledHeight d img) []) s.

Definition placeAnchors (d : Dom) (s : State) : State :=
  if is_none (topTextPosition s) then resetTextPositions d s else s.

Definition finishDraw (toUpperCase : jsstring -> jsstring)
  (img : HTMLImageElement.t) (s : State) : State :=
  match topTextPosition s, bottomTextPosition s with
  | Some tp, Some bp =>
      set_canvas
        (fold_left (fun c cmd => HTMLCanvasElement.draw cmd c)
                   (drawCalls toUpperCase img tp bp s) (canvas s))
        s
  | _, _ => s
  end.

(* ------------------------------------------------------------------------- *)
(** ** The image tray *)

(** [ids.includes(i)] *)
Definition includes_id (ids : list Z) (i : Z) : bool := existsb (Z.eqb i) ids.

(** [ids.filter(id => id !== i)] *)
Definition without (i : Z) (ids : list Z) : list Z :=
  filter (fun j => negb (Z.eqb j i)) ids.

(** [uploadedImages.filter(img => img.id !== i)] *)
Definition withoutImage (i : Z) (imgs : list ImageData) : list ImageData :=
  filter (fun img => negb (Z.eqb (id img) i)) imgs.

(** [uploadedImages.find(i => i.id === b)] *)
Definition find_image (b : Z) (imgs : list ImageData) : option ImageData :=
  find (fun img => Z.eqb (id img) b) imgs.

(** [reader.onload] of the file input: the file that was read joins the tray,
    and it becomes the base image when it is the only image there. *)
Definition fileLoaded (dataUrl : jsstring) (s : State) : State :=
  let newImage := {| id := nextImageId s; data_src := dataUrl |} in
  let s1 := set_nextImageId (nextImageId s + 1)%Z s in
  let s2 := set_uploadedImages (uploadedImages s1 ++ [newImage]) s1 in
  if (List.length (uploadedImages s2) =? 1)%nat
  then setBaseImage_start newImage s2
  else s2.

(** The click on the remove-image button. *)
Definition removeImageClick (d : Dom) (s : State) : State :=
  match baseImageId s with
  | None => s
  | Some b =>
      setBaseImage_null d
        (set_uploadedImages (withoutImage b (uploadedImages s)) s)
  end.

(** The click on the thumbnail of [imgData]: a source image becomes the base
    image, the base image is deselected, any other image becomes a source.
    [isBase] and [isSource] are read when the tray is rendered; every handler
    that assigns [baseImageId] or [sourceImageIds] renders the tray before it
    returns, so they are the values of the state the click meets. *)
Definition thumbnailClick (d : Dom) (imgData : ImageData) (s : State) : State :=
  let isBase :=
    match baseImageId s with
    | Some b => Z.eqb (id imgData) b
    | None => false
    end in
  let isSource := includes_id (sourceImageIds s) (id imgData) in
  if isSource
  then setBaseImage_start imgData
         (set_sourceImageIds (without (id imgData) (sourceImageIds s)) s)
  else if isBase
  then setBaseImage_null d s
  else set_sourceImageIds (sourceImageIds s ++ [id imgData]) s.

(** The click on the remove button of the thumbnail of [imgData]. *)
Definition thumbnailRemove (d : Dom) (imgData : ImageData) (s : State) : State :=
  let s1 := set_uploadedImages (withoutImage (id imgData) (uploadedImages s)) s in
  let s2 :=
    match baseImageId s1 with
    | Some b => if Z.eqb b (id imgData) then setBaseImage_null d s1 else s1
    | None => s1
    end in
  set_sourceImageIds (without (id imgData) (sourceImageIds s2)) s2.

(** An image that the AI returned joins the tray as the base image (the
    enhance and the generate handlers). *)
Definition imageGenerated (src : jsstring) (s : State) : State :=
  let newImageData := {| id := nextImageId s; data_src := src |} in
  let s1 := set_nextImageId (nextImageId s + 1)%Z s in
  let s2 := set_uploadedImages (uploadedImages s1 ++ [newImageData]) s1 in
  setBaseImage_start newImageData s2.

(** The same in the combine handler, which resets the sources first. *)
Definition imagesCombined (src : jsstring) (s : State) : State :=
  let newImageData := {| id := nextImageId s; data_src := src |} in
  let s1 := set_nextImageId (nextImageId s + 1)%Z s in
  let s2 := set_uploadedImages (uploadedImages s1 ++ [newImageData]) s1 in
  setBaseImage_start newImageData (set_sourceImageIds [] s2).

(** What happens on the page.  A thumbnail is the [n]-th of the tray, which
    shows [uploadedImages] in order.  [Listener e] is a listener of [step];
    [setBaseImage(imageData)] is a listener of its own nowhere, it is called by
    the actions above, and [setBaseImage(null)] at the start of the generate
    handler is [Listener ImageRemoved]. *)
Inductive Action : Type :=
| FileLoaded (dataUrl : jsstring)
| ThumbnailClick (n : nat)
| ThumbnailRemove (n : nat)
| RemoveImageClick
| ImageGenerated (src : jsstring)
| ImagesCombined (src : jsstring)
| Listener (e : Event).

Definition listens (a : Action) : bool :=
  match a with
  | Listener (ImageSelected _) => false
  | _ => true
  end.

Section Tray.

Variable toUpperCase : jsstring -> jsstring.
Variable measureText : number -> jsstring -> number.

Definition act (d : Dom) (s : State) (a : Action) : State :=
  match a with
  | FileLoaded dataUrl => fileLoaded dataUrl s
  | ThumbnailClick n =>
      match nth_error (uploadedImages s) n with
      | Some imgData => thumbnailClick d imgData s
      | None => s
      end
  | ThumbnailRemove n =>
      match nth_error (uploadedImages s) n with
      | Some imgData => thumbnailRemove d imgData s
      | None => s
      end
  | RemoveImageClick => removeImageClick d s
  | ImageGenerated src => imageGenerated src s
  | ImagesCombined src => imagesCombined src s
  | Listener e => step toUpperCase measureText d s e
  end.

Definition runActions (acts : list (Dom * Action)) (s : State) : State :=
  fold_left (fun s da => act (fst da) s (snd da)) acts s.

End Tray.

(** The roles in the tray fit together: the ids of the images are distinct and
    below [nextImageId], the sources are distinct images of the tray, and the
    base image is an image of the tray that is no source. *)
Definition tray_inv (ids : list Z) (next : Z) (base : option Z) (sources : list Z)
  : Prop :=
  NoDup ids
  /\ Forall (fun i => (i < next)%Z) ids
  /\ NoDup sources
  /\ incl sources ids
  /\ (forall b, base = Some b -> In b ids /\ ~ In b sources).

Definition tray_ok (s : State) : Prop :=
  tray_inv (map id (uploadedImages s)) (nextImageId s) (baseImageId s)
           (sourceImageIds s).

(* ------------------------------------------------------------------------- *)
(** ** The AI buttons *)

(** The [disabled] flags that [updateActionButtonsState] assigns. *)
Record Buttons : Type := {
  generateDisabled : bool;
  autoMemeDisabled : bool;
  enhanceDisabled : bool;
  combineDisabled : bool
}.

(** [ai] is whether the client was created, [promptValue] is
    [promptInput.value]. *)
Definition updateActionButtonsState (ai : bool) (promptValue : jsstring) (s : State)
  : Buttons :=
  let hasBase := negb (is_none (baseImageId s)) in
  let hasSource := negb (List.length (sourceImageIds s) =? 0)%nat in
  let hasPrompt := negb (is_empty (trim promptValue)) in
  let aiReady := ai in
  {| generateDisabled := negb hasPrompt || negb aiReady;
     autoMemeDisabled := negb hasBase || negb aiReady;
     enhanceDisabled := negb (hasBase && hasPrompt) || negb aiReady;
     combineDisabled := negb (hasBase && hasSource && hasPrompt) || negb aiReady |}.

(** How far a click handler gets before its request: it returns at once, it
    alerts and returns, or it goes on to the request. *)
Inductive Guard : Type :=
| Ignored
| Alerted (message : jsstring)
| Proceeds.

Definition autoMemeGuard (ai : bool) (s : State) : Guard :=
  match ai, baseImageId s with
  | true, Some b =>
      match find_image b (uploadedImages s) with
      | None => Alerted (js "Please select a base image first.")
      | Some _ => Proceeds
      end
  | _, _ => Ignored
  end.

Definition enhanceGuard (ai : bool) (promptValue : jsstring) (s : State) : Guard :=
  match ai, baseImageId s with
  | true, Some b =>
      if is_none (find_image b (uploadedImages s)) || is_empty promptValue
      then Alerted (js "Please select a base image and provide an instruction for enhancement.")
      else Proceeds
  | _, _ => Ignored
  end.

Definition combineGuard (ai : bool) (promptValue : jsstring) (s : State) : Guard :=
  match ai, baseImageId s with
  | true, Some b =>
      if (List.length (sourceImageIds s) =? 0)%nat then Ignored
      else
        let baseImg := find_image b (uploadedImages s) in
        let sourceImgs :=
          filter (fun i => includes_id (sourceImageIds s) (id i)) (uploadedImages s) in
        if is_none baseImg || (List.length sourceImgs =? 0)%nat || is_empty promptValue
        then Alerted (js "Please select a base image, at least one source image, and provide an instruction.")
        else Proceeds
  | _, _ => Ignored
  end.

Definition generateGuard (ai : bool) (promptValue : jsstring) : Guard :=
  if negb ai then Alerted (js "AI is not available.")
  else if is_empty promptValue then Alerted (js "Please enter a topic or description.")
  else Proceeds.

(* ------------------------------------------------------------------------- *)
(** ** Messages for the errors of the AI *)

(** Equality of strings, [===]. *)
Fixpoint jsstring_eqb (a b : jsstring) : bool :=
  match a, b with
  | [], [] => true
  | x :: a', y :: b' => (x =? y)%N && jsstring_eqb a' b'
  | _, _ => false
  end.

(** [s.startsWith(p)] *)
Fixpoint startsWith (s p : jsstring) : bool :=
  match p, s with
  | [], _ => true
  | x :: p', y :: s' => (x =? y)%N && startsWith s' p'
  | _ :: _, [] => false
  end.

(** [s.includes(needle)] *)
Fixpoint includes (s needle : jsstring) : bool :=
  startsWith s needle
  || match s with
     | [] => false
     | _ :: r => includes r needle
     end.

(** What [JSON.stringify(error)] does. *)
Inductive StringifyResult : Type :=
| StringifyThrows
| StringifyUndefined
| Stringified (text : jsstring).

(** What a [catch] gets, as far as [getApiErrorMessage] looks at it: an
    instance of [Error] with its message; another object, with its property
    [error] when that is truthy (and then the [message] of that when it is a
    string), its own [message] when it is a string, and what [JSON.stringify]
    does with it; a string; anything else. *)
Inductive Thrown : Type :=
| ThrownError (message : jsstring)
| ThrownObject (inner : option (option jsstring)) (message : option jsstring)
               (json : StringifyResult)
| ThrownString (text : jsstring)
| ThrownOther.

Definition unknownErrorMessage : jsstring :=
  js "An unknown error occurred. Please try again.".
Definition timedOutMessage : jsstring :=
  js "The AI is taking too long to respond. Please try again.".
Definition apiKeyMessage : jsstring :=
  js "The API key is invalid or missing. Please contact support.".
Definition safetyMessage : jsstring :=
  js "The request was blocked due to safety settings. Please modify your prompt.".

Section Messages.

Variable toLowerCase : jsstring -> jsstring.
Variable toUpperCase : jsstring -> jsstring.

(** [`${ms}`] *)
Variable numberToString : number -> jsstring.

(** The two checks at the end of [getApiErrorMessage]. *)
Definition classify (errorMessage : jsstring) : jsstring :=
  if includes (toLowerCase errorMessage) (js "api key not valid")
  then apiKeyMessage
  else if includes (toUpperCase errorMessage) (js "SAFETY")
  then safetyMessage
  else errorMessage.

(** [getApiErrorMessage] on an instance of [Error]. *)
Definition errorInstanceMessage (message : jsstring) : jsstring :=
  if includes message (js "timed out")
  then timedOutMessage
  else classify message.

(** [None] when the function throws: [JSON.stringify] gave [undefined], and
    [errorMessage.toLowerCase()] is a [TypeError]. *)
Definition getApiErrorMessage (error : Thrown) : option jsstring :=
  match error with
  | ThrownError message => Some (errorInstanceMessage message)
  | ThrownObject inner message json =>
      let potentialMessage :=
        match inner with
        | Some m => m
        | None => message
        end in
      match potentialMessage with
      | Some m => Some (classify m)
      | None =>
          match json with
          | StringifyThrows => Some (classify unknownErrorMessage)
          | StringifyUndefined => None
          | Stringified text => Some (classify text)
          end
      end
  | ThrownString text => Some (classify text)
  | ThrownOther => Some (classify unknownErrorMessage)
  end.


(** A part of the answer of the image model. *)
Record Part : Type := {
  inlineData : option (jsstring * jsstring);     (* mimeType, data *)
  text : option jsstring
}.

(** The loop over the parts in the enhance and the combine handlers: the first
    part with image data, and the texts of the parts before it. *)
Fixpoint scanParts (parts : list Part) (responseText : jsstring)
  : option (jsstring * jsstring) * jsstring :=
  match parts with
  | [] => (None, responseText)
  | part :: rest =>
      match inlineData part with
      | Some found => (Some found, responseText)
      | None =>
          match text part with
          | Some (c :: t) => scanParts rest (responseText ++ (c :: t) ++ js " ")
          | _ => scanParts rest responseText
          end
      end
  end.

(** What the enhance handler ([combine = false]) and the combine handler do
    with the answer: the new state, and the text of the alert if there is
    one.  Without an image the handler throws an [Error] with the text of the
    answer, catches it and alerts what [getApiErrorMessage] makes of it. *)
Definition receiveParts (combine : bool) (parts : list Part) (s : State)
  : State * option jsstring :=
  match scanParts parts [] with
  | (Some (mimeType, data), _) =>
      let src := js "data:" ++ mimeType ++ js ";base64," ++ data in
      (if combine then imagesCombined src s else imageGenerated src s, None)
  | (None, responseText) =>
      let errorMessage :=
        match trim responseText with
        | [] => js "AI did not return an image. Please try a different prompt."
        | m => m
        end in
      let prefix :=
        if combine then js "Could not combine images: "
        else js "Could not enhance image: " in
      (s, Some (prefix ++ errorInstanceMessage errorMessage))
  end.

End Messages.

(* ------------------------------------------------------------------------- *)
(** ** The image generation endpoint *)

(** A value of a request body or of a JSON answer.  An object or an array
    comes with the string that [String(v)] gives for it. *)
Inductive JsValue : Type :=
| JUndefined
| JNull
| JBool (b : bool)
| JNumber (n : number)
| JString (s : jsstring)
| JObject (asString : jsstring).

(** [!!v] *)
Definition truthy (v : JsValue) : bool :=
  match v with
  | JUndefined | JNull => false
  | JBool b => b
  | JNumber n => negb (falsy n)
  | JString s => negb (is_empty s)
  | JObject _ => true
  end.

(** The body of the request, when it is an object: its properties [prompt],
    [style] and [size]. *)
Record RequestBody : Type := { prompt : JsValue; style : JsValue; size : JsValue }.

(** [body] is [None] for a request without a body ([undefined] or [null]). *)
Record VercelRequest : Type := { method : jsstring; body : option RequestBody }.

(** The request to the image API. *)
Record UpstreamRequest : Type := {
  authorization : jsstring;
  model : jsstring;
  upstreamPrompt : jsstring;
  imageCount : Z;                 (* n *)
  upstreamSize : JsValue;
  quality : jsstring;
  response_format : jsstring
}.

(** What comes back from the image API: [fetch], [json()] or the access into
    the JSON throws ([Some m] for an [Error] with message [m], [None] for
    anything else); the answer is not ok and [error.error?.message] is
    [message]; the answer is ok and [data.data[0].url] is [url]. *)
Inductive Upstream : Type :=
| Throws (e : option jsstring)
| NotOk (message : JsValue)
| Ok (url : JsValue).

Inductive ResponseBody : Type :=
| ErrorJson (error : jsstring) (details : option jsstring)
| SuccessJson (imageUrl promptEcho styleEcho : JsValue).

Record VercelResponse : Type := { status : Z; json : ResponseBody }.

Section Endpoint.

(** [String(n)] for a number. *)
Variable numberToString : number -> jsstring.

(** [process.env.OPENAI_API_KEY] *)
Variable apiKey : JsValue.

(** The message of the [TypeError] of destructuring a missing body. *)
Variable destructuringMessage : jsstring.

(** [`${v}`] *)
Definition toTemplate (v : JsValue) : jsstring :=
  match v with
  | JUndefined => js "undefined"
  | JNull => js "null"
  | JBool true => js "true"
  | JBool false => js "false"
  | JNumber n => numberToString n
  | JString s => s
  | JObject asString => asString
  end.

(** The request that [handler] sends for the body [b]. *)
Definition upstreamRequest (b : RequestBody) : UpstreamRequest :=
  {| authorization := js "Bearer " ++ toTemplate apiKey;
     model := js "dall-e-3";
     upstreamPrompt := toTemplate (prompt b) ++ js " in " ++ toTemplate (style b)
                       ++ js " style";
     imageCount := 1;
     upstreamSize := match size b with
                     | JUndefined => JString (js "1024x1024")
                     | v => v
                     end;
     quality := js "standard";
     response_format := js "url" |}.

Definition failed (details : jsstring) : VercelResponse :=
  {| status := 500;
     json := ErrorJson (js "Failed to generate image") (Some details) |}.

(** The handler of the endpoint, with the image API as [fetch]. *)
Definition handler (fetch : UpstreamRequest -> Upstream) (req : VercelRequest)
  : VercelResponse :=
  if negb (jsstring_eqb (method req) (js "POST"))
  then {| status := 405; json := ErrorJson (js "Method not allowed") None |}
  else
    match body req with
    | None => failed destructuringMessage
    | Some b =>
        if negb (truthy (prompt b))
        then {| status := 400; json := ErrorJson (js "Prompt is required") None |}
        else
          match fetch (upstreamRequest b) with
          | Throws (Some message) => failed message
          | Throws None => failed (js "Unknown error")
          | NotOk message =>
              failed (if truthy message then toTemplate message
                      else js "Failed to generate image")
          | Ok url =>
              {| status := 200; json := SuccessJson url (prompt b) (style b) |}
          end
    end.

End Endpoint.

(* ------------------------------------------------------------------------- *)
(** ** More sample pages *)

Definition sampleLowerCase (s : jsstring) : jsstring :=
  map (fun c => if (65 <=? c)%N && (c <=? 90)%N then (c + 32)%N else c) s.

(** Integers in decimal digits; enough for the samples. *)
Definition sampleNumberToString (n : number) : jsstring :=
  match n with
  | Fin q => js (NilZero.string_of_int (Z.to_int (Qnum (this q))))
  | PInf => js "Infinity"
  | NInf => js "-Infinity"
  | NaN => js "NaN"
  end.

Definition sampleAct := act sampleUpperCase sampleMeasureText.
Definition sampleRunActions := runActions sampleUpperCase sampleMeasureText.

(** Three files are read; the second and the third image become sources, the
    second then the base image; it is decoded, and the first thumbnail is
    removed. *)
Definition sampleActions : list (Dom * Action) :=
  [ (page400, FileLoaded (js "data:image/png;base64,AAAA"));
    (page400, FileLoaded (js "data:image/png;base64,BBBB"));
    (page400, FileLoaded (js "data:image/png;base64,CCCC"));
    (page400, ThumbnailClick 1);
    (page400, ThumbnailClick 2);
    (page400, ThumbnailClick 1);
    (page400, Listener (ImageDecoded img400x400));
    (page400, ThumbnailRemove 0) ].

(** Two files in the tray: the first is the base image, the second has no
    role. *)
Definition trayOfTwo : State :=
  sampleRunActions
    [ (page400, FileLoaded (js "data:image/png;base64,AAAA"));
      (page400, FileLoaded (js "data:image/png;base64,BBBB")) ]
    initial.

Definition secondImage : ImageData :=
  {| id := 1; data_src := js "data:image/png;base64,BBBB" |}.

(** An answer of the image model: a text, an image, a text. *)
Definition sampleParts : list Part :=
  [ {| inlineData := None; text := Some (js "Here you go") |};
    {| inlineData := Some (js "image/png", js "DDDD"); text := None |};
    {| inlineData := None; text := Some (js "Enjoy") |} ].

(** A GET request, and two image APIs that answer differently. *)
Definition getRequest : VercelRequest :=
  {| method := js "GET";
     body := Some {| prompt := JString (js "a beaver"); style := JUndefined;
                     size := JUndefined |} |}.

Definition upstreamOk (r : UpstreamRequest) : Upstream :=
  Ok (JString (js "https://example.org/image.png")).

Definition upstreamDown (r : UpstreamRequest) : Upstream :=
  Throws (Some (js "fetch failed")).

(** A run of edits of [square400], and a walk of the pointer. *)
Definition sampleEdits : list (Dom * Event) :=
  [ (page400, FontSizeInput (of_Z 80));
    (page 800 800 800, Resize);
    (page400, TopTextInput (js "gm"));
    (page400, TextColorInput (js "#00ff00")) ].

Definition sampleWalk : list (number * number) :=
  [ (of_Z 300, of_Z 90); (of_Z 150, of_Z 10) ].

(* ------------------------------------------------------------------------- *)
(** ** Facts about numbers *)

Lemma Qc_compare_zero_eq (x : Qc) : (x ?= Q2Qc 0)%Qc = Eq <-> x = Q2Qc 0.
Proof. symmetry. apply Qceq_alt. Qed.

Lemma leb_le (a b : number) : (a <=? b) = true <-> a <= b.
Proof.
  destruct a as [x| | |], b as [y| | |]; simpl; try (intuition congruence).
  rewrite Qcle_alt. destruct (x ?= y)%Qc; intuition congruence.
Qed.

Lemma leb_true_le (a b : number) : (a <=? b) = true -> a <= b.
Proof. apply leb_le. Qed.

Lemma geb_le (a b : number) : (a >=? b) = true <-> b <= a.
Proof. unfold geb. apply leb_le. Qed.

Lemma falsy_Fin (x : Qc) : falsy (Fin x) = true <-> x = Q2Qc 0.
Proof.
  simpl. destruct (Qc_eq_dec x (Q2Qc 0)); split; congruence.
Qed.

Lemma falsy_false_Fin (x : Qc) : falsy (Fin x) = false <-> x <> Q2Qc 0.
Proof.
  simpl. destruct (Qc_eq_dec x (Q2Qc 0)); split; congruence.
Qed.


(** A product with a falsy factor on the right is falsy, whatever the other
    factor: [0 * Infinity] is [NaN]. *)
Lemma falsy_mul_r (a b : number) : falsy b = true -> falsy (a * b) = true.
Proof.
  destruct b as [y| | |]; simpl; try discriminate.
  - destruct (Qc_eq_dec y (Q2Qc 0)) as [->|]; [|discriminate]. intros _.
    destruct a as [x| | |]; simpl; try reflexivity;
      rewrite Qcmult_0_r; destruct (Qc_eq_dec (Q2Qc 0) (Q2Qc 0)); congruence.
  - intros _. destruct a; reflexivity.
Qed.

Lemma falsy_mul_l (a b : number) : falsy a = true -> falsy (a * b) = true.
Proof.
  destruct a as [x| | |]; simpl; try discriminate.
  - destruct (Qc_eq_dec x (Q2Qc 0)) as [->|]; [|discriminate]. intros _.
    destruct b as [y| | |]; simpl; try reflexivity;
      rewrite Qcmult_0_l; destruct (Qc_eq_dec (Q2Qc 0) (Q2Qc 0)); congruence.
  - intros _. destruct b; reflexivity.
Qed.

(** Dividing zero gives zero or [NaN]. *)
Lemma falsy_zero_div (b : number) : falsy (zero / b) = true.
Proof.
  destruct b as [y| | |]; simpl; try reflexivity.
  destruct (y ?= Q2Qc 0)%Qc; simpl; try reflexivity;
    unfold Qcdiv; rewrite Qcmult_0_l;
    destruct (Qc_eq_dec (Q2Qc 0) (Q2Qc 0)); congruence.
Qed.

Lemma falsy_Math_min (a b : number) :
  falsy a = true -> falsy b = true -> falsy (Math_min a b) = true.
Proof.
  intros Ha Hb. unfold Math_min.
  destruct a as [x| | |], b as [y| | |]; simpl in *; try discriminate; try reflexivity.
  destruct (match (x ?= y)%Qc with Gt => false | _ => true end); assumption.
Qed.

Lemma number_eqb_eq (a b : number) : number_eqb a b = true -> a = b.
Proof.
  destruct a as [x| | |], b as [y| | |]; simpl; try discriminate; try reflexivity.
  intros H. f_equal. apply Qc_eq_bool_correct. exact H.
Qed.

Lemma number_eqb_neq (a b : number) : number_eqb a b = false -> a <> b.
Proof.
  destruct a as [x| | |], b as [y| | |]; simpl; try discriminate; try congruence.
  unfold Qc_eq_bool. destruct (Qc_eq_dec x y); [discriminate|congruence].
Qed.

(** Closed equations between numbers, by evaluation. *)
Ltac num_eq := apply number_eqb_eq; vm_compute; reflexivity.
Ltac num_neq := apply number_eqb_neq; vm_compute; reflexivity.

Lemma Position_eqb_eq (p q : Position) : Position_eqb p q = true -> p = q.
Proof.
  destruct p as [a b], q as [a' b']. unfold Position_eqb. simpl.
  intros H. apply andb_true_iff in H. destruct H as [Ha Hb].
  apply number_eqb_eq in Ha. apply number_eqb_eq in Hb. congruence.
Qed.

Lemma anchor_eqb_eq (o o' : option Position) : anchor_eqb o o' = true -> o = o'.
Proof.
  destruct o as [p|], o' as [q|]; simpl; try discriminate; try reflexivity.
  intros H. f_equal. apply Position_eqb_eq. exact H.
Qed.

Ltac anchor_eq := apply anchor_eqb_eq; vm_compute; reflexivity.

(* ------------------------------------------------------------------------- *)
(** ** Facts about [trim] *)

Lemma trimStart_whitespace (s : jsstring) :
  forallb isWhiteSpace s = true -> trimStart s = [].
Proof.
  induction s as [|c r IH]; simpl; [reflexivity|].
  intros H. apply andb_true_iff in H. destruct H as [Hc Hr].
  rewrite Hc. apply IH. exact Hr.
Qed.

Lemma trim_whitespace (s : jsstring) :
  forallb isWhiteSpace s = true -> trim s = [].
Proof.
  intros H. unfold trim, trimEnd. rewrite (trimStart_whitespace s H). reflexivity.
Qed.

(** When something is left of a string by [trimStart], it starts with a code
    unit that is not white space. *)
Lemma trimStart_head (s : jsstring) (c : N) (r : jsstring) :
  trimStart s = c :: r -> isWhiteSpace c = false.
Proof.
  induction s as [|a t IH]; simpl; [discriminate|].
  destruct (isWhiteSpace a) eqn:E; [exact IH|].
  intros H. injection H as -> _. exact E.
Qed.

Lemma trimStart_suffix (s : jsstring) :
  exists p, s = p ++ trimStart s /\ forallb isWhiteSpace p = true.
Proof.
  induction s as [|a t [p [Hp Hw]]]; simpl.
  - exists []. split; reflexivity.
  - destruct (isWhiteSpace a) eqn:E.
    + exists (a :: p). simpl. rewrite E, Hw. split; [f_equal; exact Hp|reflexivity].
    + exists []. split; reflexivity.
Qed.

(** [trim] leaves nothing exactly of the strings made of white space. *)
Lemma trim_empty_iff (s : jsstring) :
  trim s = [] <-> forallb isWhiteSpace s = true.
Proof.
  split; [|apply trim_whitespace].
  unfold trim, trimEnd. intros H.
  destruct (trimStart_suffix s) as [p [Hp Hw]].
  destruct (trimStart s) as [|c r] eqn:E.
  - rewrite Hp, app_nil_r. exact Hw.
  - exfalso.
    assert (Hc : isWhiteSpace c = false) by (apply (trimStart_head s c r E)).
    remember (rev (c :: r)) as l eqn:El.
    apply (f_equal (@rev N)) in H. rewrite rev_involutive in H.
    change (rev []) with (@nil N) in H.
    destruct (trimStart_suffix l) as [p' [Hp' Hw']].
    rewrite H, app_nil_r in Hp'.
    assert (Hin : In c p').
    { rewrite <- Hp', El. apply in_rev. rewrite rev_involutive. left. reflexivity. }
    rewrite forallb_forall in Hw'. rewrite (Hw' c Hin) in Hc. discriminate.
Qed.

(* ------------------------------------------------------------------------- *)
(** ** Facts about [redrawCanvas] *)

Section Properties.

Variable toUpperCase : jsstring -> jsstring.
Variable measureText : number -> jsstring -> number.
Variable toDataURL : HTMLCanvasElement.t -> jsstring -> jsstring.

Lemma draw_all_size (cmds : list DrawCmd) (c : HTMLCanvasElement.t) :
  let c' := fold_left (fun c cmd => HTMLCanvasElement.draw cmd c) cmds c in
  HTMLCanvasElement.width c' = HTMLCanvasElement.width c
  /\ HTMLCanvasElement.height c' = HTMLCanvasElement.height c.
Proof.
  revert c. induction cmds as [|cmd r IH]; intros c; simpl; [split; reflexivity|].
  destruct (IH (HTMLCanvasElement.draw cmd c)) as [Hw Hh].
  simpl in Hw, Hh. split; assumption.
Qed.

Lemma draw_all_drawn (cmds : list DrawCmd) (c : HTMLCanvasElement.t) :
  HTMLCanvasElement.drawn
    (fold_left (fun c cmd => HTMLCanvasElement.draw cmd c) cmds c)
  = HTMLCanvasElement.drawn c ++ cmds.
Proof.
  revert c. induction cmds as [|cmd r IH]; intros c; simpl.
  - rewrite app_nil_r. reflexivity.
  - rewrite IH. simpl. rewrite <- app_assoc. reflexivity.
Qed.

(** Without a context or without an image [redrawCanvas] returns at once. *)
Lemma redrawCanvas_no_ctx (d : Dom) (s : State) :
  ctx d = false -> redrawCanvas toUpperCase d s = s.
Proof. intros H. unfold redrawCanvas. rewrite H. reflexivity. Qed.

Lemma redrawCanvas_no_image (d : Dom) (s : State) :
  image s = None -> redrawCanvas toUpperCase d s = s.
Proof. intros H. unfold redrawCanvas. rewrite H. destruct (ctx d); reflexivity. Qed.

(** [redrawCanvas] assigns the scaled size to the canvas. *)
Lemma redrawCanvas_size (d : Dom) (s : State) (img : HTMLImageElement.t) :
  ctx d = true -> image s = Some img ->
  HTMLCanvasElement.width (canvas (redrawCanvas toUpperCase d s)) = scaledWidth d img
  /\ HTMLCanvasElement.height (canvas (redrawCanvas toUpperCase d s)) = scaledHeight d img.
Proof.
  intros Hc Hi. destruct s. simpl in Hi. subst.
  unfold redrawCanvas. rewrite Hc. simpl.
  destruct topTextPosition0 as [tp|]; simpl.
  - destruct bottomTextPosition0 as [bp|]; simpl; split; reflexivity.
  - unfold resetTextPositions. rewrite Hc. simpl.
    destruct (falsy _ || falsy _); simpl.
    + split; reflexivity.
    + split; reflexivity.
Qed.

Ltac redraw_cases d s :=
  destruct s as [im0 ui0 ni0 bi0 si0 tt0 bt0 fs0 tc0 [tp0|] [bp0|] dg0 dt0 dx0 dy0 cv0 cu0];
  destruct d as [[|] cw0 rc0]; destruct im0 as [img0|];
  unfold redrawCanvas, resetTextPositions, scaledWidth, scaledHeight in *;
  cbn in *;
  try match goal with
      | |- context [falsy ?a || falsy ?b] => destruct (falsy a || falsy b) eqn:?
      end; cbn in *.

Lemma redrawCanvas_same_content (d : Dom) (s : State) :
  same_content s (redrawCanvas toUpperCase d s).
Proof.
  unfold same_content. redraw_cases d s; repeat split; reflexivity.
Qed.

(** An established top anchor is kept by [redrawCanvas], with the bottom
    anchor. *)
Lemma redrawCanvas_anchors_kept (d : Dom) (s : State) (p : Position) :
  topTextPosition s = Some p ->
  topTextPosition (redrawCanvas toUpperCase d s) = Some p
  /\ bottomTextPosition (redrawCanvas toUpperCase d s) = bottomTextPosition s.
Proof.
  intros H. redraw_cases d s; try discriminate; split; first [exact H | reflexivity].
Qed.

(** On a canvas without width or without height the anchors are left as they
    are. *)
Lemma redrawCanvas_anchors_degenerate (d : Dom) (s : State) (img : HTMLImageElement.t) :
  image s = Some img ->
  falsy (scaledWidth d img) || falsy (scaledHeight d img) = true ->
  topTextPosition (redrawCanvas toUpperCase d s) = topTextPosition s
  /\ bottomTextPosition (redrawCanvas toUpperCase d s) = bottomTextPosition s.
Proof.
  intros Hi Hd.
  redraw_cases d s; try discriminate; try (split; reflexivity);
    injection Hi as ->; congruence.
Qed.

(** Without a top anchor, and on a canvas with a width and a height, both
    anchors are set to the defaults. *)
Lemma redrawCanvas_anchors_default (d : Dom) (s : State) (img : HTMLImageElement.t) :
  ctx d = true -> image s = Some img -> topTextPosition s = None ->
  falsy (scaledWidth d img) = false -> falsy (scaledHeight d img) = false ->
  topTextPosition (redrawCanvas toUpperCase d s)
  = Some {| rx := n0_5; ry := (fontSize s * n1_2) / scaledHeight d img |}
  /\ bottomTextPosition (redrawCanvas toUpperCase d s)
     = Some {| rx := n0_5;
               ry := (scaledHeight d img - fontSize s * n0_4) / scaledHeight d img |}.
Proof.
  intros Hc Hi Ht Hw Hh.
  redraw_cases d s; try discriminate; injection Hi as ->.
  - rewrite Hw, Hh in *. discriminate.
  - split; reflexivity.
  - rewrite Hw, Hh in *. discriminate.
  - split; reflexivity.
Qed.

(** The calls [redrawCanvas] draws with, once both anchors are there. *)
Lemma redrawCanvas_drawn (d : Dom) (s : State) (img : HTMLImageElement.t)
  (tp bp : Position) :
  ctx d = true -> image s = Some img ->
  topTextPosition s = Some tp -> bottomTextPosition s = Some bp ->
  let s' := redrawCanvas toUpperCase d s in
  HTMLCanvasElement.drawn (canvas s') = drawCalls toUpperCase img tp bp s'.
Proof.
  intros Hc Hi Ht Hb. redraw_cases d s; try discriminate.
  injection Hi as ->. injection Ht as ->. injection Hb as ->. reflexivity.
Qed.


(** When both image sides and the container width are finite and positive, the
    canvas keeps the aspect ratio of the image. *)
Lemma scaled_aspect_ratio (d : Dom) (img : HTMLImageElement.t) (w h cw : Qc) :
  HTMLImageElement.width img = Fin w -> HTMLImageElement.height img = Fin h ->
  clientWidth d = Fin cw ->
  (Q2Qc 0 < w)%Qc -> (Q2Qc 0 < h)%Qc -> (Q2Qc 0 < cw)%Qc ->
  scaledWidth d img / scaledHeight d img = Fin w / Fin h.
Proof.
  intros Hw Hh Hcw Pw Ph Pcw.
  assert (Nw : w <> Q2Qc 0) by (apply not_eq_sym, Qclt_not_eq; exact Pw).
  assert (Nh : h <> Q2Qc 0) by (apply not_eq_sym, Qclt_not_eq; exact Ph).
  assert (Ncw : cw <> Q2Qc 0) by (apply not_eq_sym, Qclt_not_eq; exact Pcw).
  assert (Cw : (w ?= Q2Qc 0)%Qc = Gt) by (apply Qcgt_alt; exact Pw).
  assert (Ch : (h ?= Q2Qc 0)%Qc = Gt) by (apply Qcgt_alt; exact Ph).
  unfold scaledWidth, scaledHeight, scaleOf. rewrite Hw, Hh, Hcw.
  simpl. rewrite Cw, Ch. simpl.
  assert (Hgen : forall k : Qc, k <> Q2Qc 0 -> Fin (w * k)%Qc / Fin (h * k)%Qc = Fin (w / h)%Qc).
  { intros k Nk. simpl.
    assert (Nhk : (h * k)%Qc <> Q2Qc 0).
    { intros E. apply Qcmult_integral in E. tauto. }
    destruct (h * k ?= Q2Qc 0)%Qc eqn:E.
    - apply Qc_compare_zero_eq in E. contradiction.
    - f_equal. field. split; assumption.
    - f_equal. field. split; assumption. }
  assert (Nq1 : (cw / w)%Qc <> Q2Qc 0).
  { intros E. apply (f_equal (fun q => (q * w)%Qc)) in E.
    unfold Qcdiv in E. rewrite <- Qcmult_assoc, Qcmult_inv_l, Qcmult_1_r, Qcmult_0_l in E by exact Nw.
    contradiction. }
  assert (Nq2 : (cw / h)%Qc <> Q2Qc 0).
  { intros E. apply (f_equal (fun q => (q * h)%Qc)) in E.
    unfold Qcdiv in E. rewrite <- Qcmult_assoc, Qcmult_inv_l, Qcmult_1_r, Qcmult_0_l in E by exact Nh.
    contradiction. }
  destruct (cw / w ?= cw / h)%Qc; apply Hgen; assumption.
Qed.

(* ------------------------------------------------------------------------- *)
(** ** Properties of the compositor *)



(** One pointer move of an active drag. *)
Lemma handleDragMove_step
  (d : Dom) (s : State) (clientX clientY : number) (which : TextId)
  (tp bp : Position) :
  isDragging s = true -> draggingText s = Some which ->
  topTextPosition s = Some tp -> bottomTextPosition s = Some bp ->
  let mouseX := fst (getCanvasCoordinates d s clientX clientY) in
  let mouseY := snd (getCanvasCoordinates d s clientX clientY) in
  let dragged := match which with top => tp | bottom => bp end in
  let s' := handleDragMove toUpperCase measureText d s clientX clientY in
  anchor which s'
  = Some (moveBy (mouseX - dragStartX s) (mouseY - dragStartY s) (canvas s) dragged)
  /\ anchor (other which) s' = anchor (other which) s
  /\ dragStartX s' = mouseX
  /\ dragStartY s' = mouseY
  /\ isDragging s' = true
  /\ draggingText s' = Some which.
Proof.
  intros Hd Hw Ht Hb. cbv zeta. unfold handleDragMove.
  destruct (getCanvasCoordinates d s clientX clientY) as [mouseX mouseY] eqn:Hxy.
  destruct s as [im ui ni bi si tt bt fs tc tpo bpo dg dt sx sy cv cu].
  simpl in Hd, Hw, Ht, Hb. subst dg dt tpo bpo.
  cbn [set_cursor isDragging topTextPosition bottomTextPosition draggingText
       dragStartX dragStartY canvas fst snd orb].
  destruct which; cbn [set_topTextPosition set_bottomTextPosition set_dragStartX
                       set_dragStartY anchor other];
    match goal with
    | |- context [redrawCanvas toUpperCase d ?st] =>
        destruct (redrawCanvas_same_content d st)
          as (_ & _ & _ & _ & _ & _ & _ & _ & _ & Hg & Hdt & Hx & Hy & _);
        destruct (redrawCanvas_anchors_kept d st _ eq_refl) as [Hkt Hkb];
        rewrite Hkt, Hkb, Hx, Hy, Hg, Hdt
    end; repeat split; reflexivity.
Qed.

(** C3.  While a drag is active, a pointer move adds the pixel delta from the
    recorded reference point, divided by the current canvas width, to the [rx]
    of the dragged overlay (divided by the canvas height, to its [ry]), leaves
    the other overlay where it is, and records the pointer position as the new
    reference point; so a second move adds its own delta from the first
    pointer position, and the deltas of two moves add up in [rx]. *)
Theorem C3_drag_move_adds_delta
  (d : Dom) (s : State) (clientX clientY : number) (which : TextId)
  (tp bp : Position) :
  isDragging s = true -> draggingText s = Some which ->
  topTextPosition s = Some tp -> bottomTextPosition s = Some bp ->
  let mouseX := fst (getCanvasCoordinates d s clientX clientY) in
  let mouseY := snd (getCanvasCoordinates d s clientX clientY) in
  let dx := mouseX - dragStartX s in
  let dy := mouseY - dragStartY s in
  let canvasWidth := HTMLCanvasElement.width (canvas s) in
  let canvasHeight := HTMLCanvasElement.height (canvas s) in
  let dragged := match which with top => tp | bottom => bp end in
  let s' := handleDragMove toUpperCase measureText d s clientX clientY in
  anchor which s'
  = Some {| rx := rx dragged + dx / canvasWidth;
            ry := ry dragged + dy / canvasHeight |}
  /\ anchor (other which) s' = anchor (other which) s
  /\ dragStartX s' = mouseX
  /\ dragStartY s' = mouseY
  /\ (forall clientX2 clientY2 : number,
      let mouseX2 := fst (getCanvasCoordinates d s' clientX2 clientY2) in
      let dx2 := mouseX2 - mouseX in
      let canvasWidth2 := HTMLCanvasElement.width (canvas s') in
      let s'' := handleDragMove toUpperCase measureText d s' clientX2 clientY2 in
      option_map rx (anchor which s'')
      = Some ((rx dragged + dx / canvasWidth) + dx2 / canvasWidth2)).
Proof.
  intros Hd Hw Ht Hb. cbv zeta.
  destruct (handleDragMove_step d s clientX clientY which tp bp Hd Hw Ht Hb)
    as (Ha & Ho & Hx & Hy & Hd' & Hw').
  split; [exact Ha|]. split; [exact Ho|]. split; [exact Hx|]. split; [exact Hy|].
  intros clientX2 clientY2.
  set (s' := handleDragMove toUpperCase measureText d s clientX clientY) in *.
  assert (Hboth : exists tp' bp',
             topTextPosition s' = Some tp' /\ bottomTextPosition s' = Some bp'
             /\ match which with top => tp' | bottom => bp' end
                = moveBy (fst (getCanvasCoordinates d s clientX clientY) - dragStartX s)
                         (snd (getCanvasCoordinates d s clientX clientY) - dragStartY s)
                         (canvas s)
                         match which with top => tp | bottom => bp end).
  { destruct which; simpl anchor in Ha, Ho.
    - rewrite Hb in Ho. eexists. eexists. split; [exact Ha|]. split; [exact Ho|].
      reflexivity.
    - rewrite Ht in Ho. eexists. eexists. split; [exact Ho|]. split; [exact Ha|].
      reflexivity. }
  destruct Hboth as (tp' & bp' & Ht' & Hb' & Hdragged).
  destruct (handleDragMove_step d s' clientX2 clientY2 which tp' bp' Hd' Hw' Ht' Hb')
    as (Ha2 & _).
  rewrite Ha2, Hdragged, Hx. reflexivity.
Qed.

(** C4.  For every overlay whose content is not made of white space
    only, with an established anchor, the hit test is true exactly when the
    pointer lies in the box centred horizontally on the anchor's pixel
    position, half the measured width of the uppercased text to each side, and
    reaching from [anchorY - fontSizePx] to [anchorY + fontSizePx * 0.2], the
    edges included; it is false everywhere when the content trims to the empty
    string or when there is no anchor. *)
Theorem C4_hit_test_box
  (d : Dom) (s : State) (mouseX mouseY : number) (text : jsstring)
  (textRelPos : option Position) :
  ctx d = true ->
  let hit :=
    isMouseOverText toUpperCase measureText d s mouseX mouseY text textRelPos in
  (forall p : Position, textRelPos = Some p -> trim text <> [] ->
     (hit = true <-> pointer_in_box toUpperCase measureText s text p mouseX mouseY))
  /\ (trim text = [] \/ textRelPos = None -> hit = false).
Proof.
  intros Hc. cbv zeta. unfold isMouseOverText, pointer_in_box.
  rewrite Hc. simpl negb. split.
  - intros p -> Hne. destruct (trim text) as [|c r] eqn:Et; [congruence|].
    simpl is_empty. cbn [orb].
    rewrite !andb_true_iff, !geb_le, !leb_le. tauto.
  - intros [Ht | ->]; [|reflexivity].
    rewrite Ht. destruct textRelPos; reflexivity.
Qed.


(** C6.  The export fails, with [false] for the caller, exactly when no base
    image is loaded, and it hands out nothing then; with an image loaded it
    succeeds and hands out the PNG encoding of the current canvas. *)
Theorem C6_export_fails_iff_no_image (s : State) :
  (fst (triggerMemeDownload toDataURL s) = false <-> image s = None)
  /\ (image s = None -> triggerMemeDownload toDataURL s = (false, None))
  /\ (forall img : HTMLImageElement.t, image s = Some img ->
      triggerMemeDownload toDataURL s
      = (true, Some {| href := toDataURL (canvas s) (js "image/png");
                       download := js "memehub-meme.png" |})).
Proof.
  unfold triggerMemeDownload.
  destruct (image s) as [img|]; simpl; repeat split; intros; congruence.
Qed.

(** C7.  The remix reset clears the image, the texts and the anchors:
    afterwards there is no base image, no image in the tray, the canvas is 0 by
    0 and empty, both texts are empty and no anchor is left.  The font size and
    the text colour are the ones from before the reset. *)
Theorem C7_remix_clears_image_and_text (d : Dom) (s : State) :
  let s' := remix d s in
  image s' = None /\ baseImageId s' = None
  /\ uploadedImages s' = [] /\ sourceImageIds s' = []
  /\ topText s' = [] /\ bottomText s' = []
  /\ topTextPosition s' = None /\ bottomTextPosition s' = None
  /\ canvas s' = HTMLCanvasElement.mk zero zero []
  /\ fontSize s' = fontSize s /\ textColor s' = textColor s.
Proof.
  destruct s, d as [[|] cw rc]; cbv zeta; unfold remix; simpl;
    repeat split; reflexivity.
Qed.

(** With finite positive image sides and container width, the canvas comes out
    with a width and a height. *)
Lemma positive_surface (d : Dom) (img : HTMLImageElement.t) (w h cw : Qc) :
  HTMLImageElement.width img = Fin w -> HTMLImageElement.height img = Fin h ->
  clientWidth d = Fin cw ->
  (Q2Qc 0 < w)%Qc -> (Q2Qc 0 < h)%Qc -> (Q2Qc 0 < cw)%Qc ->
  falsy (scaledWidth d img) = false /\ falsy (scaledHeight d img) = false.
Proof.
  intros Hw Hh Hcw Pw Ph Pcw.
  assert (Nw : w <> Q2Qc 0) by (apply not_eq_sym, Qclt_not_eq; exact Pw).
  assert (Nh : h <> Q2Qc 0) by (apply not_eq_sym, Qclt_not_eq; exact Ph).
  assert (Ncw : cw <> Q2Qc 0) by (apply not_eq_sym, Qclt_not_eq; exact Pcw).
  assert (Cw : (w ?= Q2Qc 0)%Qc = Gt) by (apply Qcgt_alt; exact Pw).
  assert (Ch : (h ?= Q2Qc 0)%Qc = Gt) by (apply Qcgt_alt; exact Ph).
  assert (Ndiv : forall k : Qc, k <> Q2Qc 0 -> (cw / k)%Qc <> Q2Qc 0).
  { intros k Nk E. apply (f_equal (fun q => (q * k)%Qc)) in E.
    unfold Qcdiv in E.
    rewrite <- Qcmult_assoc, Qcmult_inv_l, Qcmult_1_r, Qcmult_0_l in E by exact Nk.
    contradiction. }
  assert (Nprod : forall a k : Qc, a <> Q2Qc 0 -> k <> Q2Qc 0 ->
            falsy (Fin (a * k)%Qc) = false).
  { intros a k Na Nk. apply falsy_false_Fin. intros E.
    apply Qcmult_integral in E. tauto. }
  unfold scaledWidth, scaledHeight, scaleOf. rewrite Hw, Hh, Hcw.
  cbn [div]. rewrite Cw, Ch. cbn [Math_min leb].
  destruct (cw / w ?= cw / h)%Qc; cbn [mul]; split; apply Nprod; auto.
Qed.

(** With a container of width zero, or an image one side of which is zero, the
    canvas comes out without a width or without a height. *)
Lemma degenerate_surface (d : Dom) (img : HTMLImageElement.t) :
  clientWidth d = zero
  \/ HTMLImageElement.width img = zero \/ HTMLImageElement.height img = zero ->
  falsy (scaledWidth d img) || falsy (scaledHeight d img) = true.
Proof.
  unfold scaledWidth, scaledHeight, scaleOf. intros [H | [H | H]].
  - rewrite H. rewrite falsy_mul_r; [reflexivity|].
    apply falsy_Math_min; apply falsy_zero_div.
  - rewrite falsy_mul_l; [reflexivity|]. rewrite H. reflexivity.
  - apply orb_true_iff. right. apply falsy_mul_l. rewrite H. reflexivity.
Qed.

(** C8.  A render with a container of width zero, or with an image
    one side of which is zero, changes neither the anchors nor the texts, the
    styles, the image or the drag session, whatever the state before.  It draws
    nothing when an anchor is missing: it returns at once, or it returns with
    an empty canvas.  With both anchors established it goes on to issue its six
    drawing calls on the canvas, which has no width or no height then. *)
Theorem C8_degenerate_render_keeps_state (d : Dom) (s : State) :
  (clientWidth d = zero
   \/ exists img, image s = Some img
        /\ (HTMLImageElement.width img = zero
            \/ HTMLImageElement.height img = zero)) ->
  let s' := redrawCanvas toUpperCase d s in
  topTextPosition s' = topTextPosition s
  /\ bottomTextPosition s' = bottomTextPosition s
  /\ same_content s s'
  /\ (topTextPosition s = None \/ bottomTextPosition s = None ->
      s' = s \/ HTMLCanvasElement.drawn (canvas s') = [])
  /\ (forall img tp bp, ctx d = true -> image s = Some img ->
      topTextPosition s = Some tp -> bottomTextPosition s = Some bp ->
      HTMLCanvasElement.drawn (canvas s') = drawCalls toUpperCase img tp bp s'
      /\ falsy (HTMLCanvasElement.width (canvas s'))
         || falsy (HTMLCanvasElement.height (canvas s')) = true).
Proof.
  intros Hdeg. cbv zeta.
  assert (Hsurf : forall img, image s = Some img ->
            falsy (scaledWidth d img) || falsy (scaledHeight d img) = true).
  { intros img Hi. apply degenerate_surface.
    destruct Hdeg as [H | [img' [Hi' H]]]; [left; exact H|].
    right. rewrite Hi in Hi'. injection Hi' as <-. exact H. }
  assert (Hanch : topTextPosition (redrawCanvas toUpperCase d s) = topTextPosition s
                  /\ bottomTextPosition (redrawCanvas toUpperCase d s)
                     = bottomTextPosition s).
  { destruct (image s) as [img|] eqn:Hi.
    - apply (redrawCanvas_anchors_degenerate d s img Hi (Hsurf img eq_refl)).
    - rewrite (redrawCanvas_no_image d s Hi). split; reflexivity. }
  destruct Hanch as [Ht Hb].
  split; [exact Ht|]. split; [exact Hb|].
  split; [apply redrawCanvas_same_content|]. split.
  - intros Hnone. clear Hdeg Ht Hb.
    destruct (ctx d) eqn:Hc; [|left; apply redrawCanvas_no_ctx; exact Hc].
    destruct (image s) as [img|] eqn:Hi;
      [|left; apply redrawCanvas_no_image; exact Hi].
    right. specialize (Hsurf img eq_refl). revert Hi Hsurf Hc Hnone.
    intros Hi Hsurf Hc Hnone.
    redraw_cases d s; try discriminate; try reflexivity;
      try (injection Hi as ->; congruence);
      destruct Hnone; discriminate.
  - intros img tp bp Hc Hi Htp Hbp. split.
    + apply (redrawCanvas_drawn d s img tp bp Hc Hi Htp Hbp).
    + destruct (redrawCanvas_size d s img Hc Hi) as [Hw Hh].
      rewrite Hw, Hh. apply Hsurf. exact Hi.
Qed.


(** C10.  An overlay whose content is not empty but made of white space only
    trims to the empty string, so the hit test is false for it at every
    pointer position, and no pointer-down starts a drag of it: the state stays
    as it is or the drag that starts is one of the other overlay. *)
Theorem C10_whitespace_only_never_hit (d : Dom) (s : State) (text : jsstring) :
  text <> [] -> forallb isWhiteSpace text = true ->
  trim text = []
  /\ (forall (mouseX mouseY : number) (pos : option Position),
      isMouseOverText toUpperCase measureText d s mouseX mouseY text pos = false)
  /\ (forall clientX clientY : number, topText s = text ->
      let s' := handleDragStart toUpperCase measureText d s clientX clientY in
      s' = s \/ draggingText s' = Some bottom)
  /\ (forall clientX clientY : number, bottomText s = text ->
      let s' := handleDragStart toUpperCase measureText d s clientX clientY in
      s' = s \/ draggingText s' = Some top).
Proof.
  intros _ Hws.
  assert (Htrim : trim text = []) by (apply trim_whitespace; exact Hws).
  assert (Hhit : forall (dd : Dom) (ss : State) (mouseX mouseY : number)
                        (pos : option Position),
             isMouseOverText toUpperCase measureText dd ss mouseX mouseY text pos
             = false).
  { intros dd ss mouseX mouseY pos. unfold isMouseOverText. rewrite Htrim.
    destruct pos; [|reflexivity]. simpl. rewrite orb_true_r. reflexivity. }
  split; [exact Htrim|]. split; [intros; apply Hhit|]. split.
  - intros clientX clientY Etext. cbv zeta. unfold handleDragStart.
    destruct (topTextPosition s) as [tp|]; [|left; reflexivity].
    destruct (bottomTextPosition s) as [bp|]; [|left; reflexivity].
    destruct (getCanvasCoordinates d s clientX clientY) as [mouseX mouseY].
    rewrite Etext, Hhit.
    destruct (isMouseOverText _ _ _ _ _ _ _ _); [right|left; reflexivity].
    destruct s; reflexivity.
  - intros clientX clientY Etext. cbv zeta. unfold handleDragStart.
    destruct (topTextPosition s) as [tp|]; [|left; reflexivity].
    destruct (bottomTextPosition s) as [bp|]; [|left; reflexivity].
    destruct (getCanvasCoordinates d s clientX clientY) as [mouseX mouseY].
    rewrite Etext, Hhit.
    destruct (isMouseOverText _ _ _ _ _ _ _ _); [right|left; reflexivity].
    destruct s; reflexivity.
Qed.

End Properties.

(* ------------------------------------------------------------------------- *)
(** ** The properties on the sample pages *)



Lemma C3_witness :
  isDragging down400 = true /\ draggingText down400 = Some top
  /\ topTextPosition down400 = Some {| rx := n0_5; ry := lit 1 10 |}
  /\ HTMLCanvasElement.width (canvas down400) = of_Z 400
  /\ HTMLCanvasElement.height (canvas down400) = of_Z 400
  /\ topTextPosition moved2 = Some {| rx := lit 11 20; ry := lit 1 10 |}
  /\ dragStartX moved2 = of_Z 220.
Proof.
  assert (Hb1 : bottomTextPosition down400 = Some {| rx := n0_5; ry := lit 24 25 |})
    by anchor_eq.
  assert (Ht1 : topTextPosition down400 = Some {| rx := n0_5; ry := lit 1 10 |})
    by anchor_eq.
  assert (Hd1 : isDragging down400 = true) by (vm_compute; reflexivity).
  assert (Hw1 : draggingText down400 = Some top) by (vm_compute; reflexivity).
  destruct (C3_drag_move_adds_delta sampleUpperCase sampleMeasureText page400
              down400 (of_Z 210) (of_Z 40) top _ _ Hd1 Hw1 Ht1 Hb1)
    as (Ha1 & _ & _ & _).
  unfold anchor in Ha1.
  assert (Hb2 : bottomTextPosition moved1 = Some {| rx := n0_5; ry := lit 24 25 |})
    by anchor_eq.
  assert (Hd2 : isDragging moved1 = true) by (vm_compute; reflexivity).
  assert (Hw2 : draggingText moved1 = Some top) by (vm_compute; reflexivity).
  destruct (C3_drag_move_adds_delta sampleUpperCase sampleMeasureText page400
              moved1 (of_Z 220) (of_Z 40) top _ _ Hd2 Hw2 Ha1 Hb2)
    as (Ha2 & _ & Hx2 & _).
  unfold anchor in Ha2.
  split; [exact Hd1|]. split; [exact Hw1|]. split; [exact Ht1|].
  split; [num_eq|]. split; [num_eq|].
  split; [unfold moved2; rewrite Ha2; anchor_eq|unfold moved2; rewrite Hx2; num_eq].
Defined.

Lemma C4_counterexample :
  js " " <> []
  /\ topTextPosition blank400 = Some {| rx := n0_5; ry := lit 1 10 |}
  /\ pointer_in_box sampleUpperCase sampleMeasureText blank400 (js " ")
       {| rx := n0_5; ry := lit 1 10 |} (of_Z 200) (of_Z 40)
  /\ isMouseOverText sampleUpperCase sampleMeasureText page400 blank400
       (of_Z 200) (of_Z 40) (js " ") (topTextPosition blank400) = false.
Proof.
  split; [discriminate|]. split; [anchor_eq|]. split.
  - unfold pointer_in_box. cbv zeta.
    split; [|split; [|split]];
      (apply leb_true_le; vm_compute; reflexivity).
  - vm_compute. reflexivity.
Qed.

Lemma C4_witness :
  ctx page400 = true /\ trim (js "hi") <> []
  /\ isMouseOverText sampleUpperCase sampleMeasureText page400 square400
       (of_Z 180) (of_Z 48) (js "hi") (Some {| rx := n0_5; ry := lit 1 10 |})
     = true
  /\ isMouseOverText sampleUpperCase sampleMeasureText page400 square400
       (of_Z 179) (of_Z 48) (js "hi") (Some {| rx := n0_5; ry := lit 1 10 |})
     = false
  /\ isMouseOverText sampleUpperCase sampleMeasureText page400 square400
       (of_Z 180) (of_Z 49) (js "hi") (Some {| rx := n0_5; ry := lit 1 10 |})
     = false
  /\ isMouseOverText sampleUpperCase sampleMeasureText page400 square400
       (of_Z 200) (of_Z 40) (js "") (Some {| rx := n0_5; ry := lit 1 10 |})
     = false.
Proof.
  assert (Hne : trim (js "hi") <> []) by (vm_compute; discriminate).
  split; [reflexivity|]. split; [exact Hne|]. split; [|split; [|split]].
  - destruct (C4_hit_test_box sampleUpperCase sampleMeasureText page400 square400
                (of_Z 180) (of_Z 48) (js "hi")
                (Some {| rx := n0_5; ry := lit 1 10 |}) eq_refl) as [Hbox _].
    apply (Hbox _ eq_refl Hne).
    unfold pointer_in_box. cbv zeta.
    split; [|split; [|split]];
      (apply leb_true_le; vm_compute; reflexivity).
  - vm_compute. reflexivity.
  - vm_compute. reflexivity.
  - destruct (C4_hit_test_box sampleUpperCase sampleMeasureText page400 square400
                (of_Z 200) (of_Z 40) (js "")
                (Some {| rx := n0_5; ry := lit 1 10 |}) eq_refl) as [_ Hnone].
    apply Hnone. left. reflexivity.
Defined.


(** The export before any image is there, and with the wide image rendered. *)
Lemma C6_witness :
  triggerMemeDownload sampleToDataURL initial = (false, None)
  /\ triggerMemeDownload sampleToDataURL wideRendered
     = (true, Some {| href := sampleToDataURL (canvas wideRendered) (js "image/png");
                      download := js "memehub-meme.png" |})
  /\ sampleToDataURL (canvas wideRendered) (js "image/png")
     = js "data:image/png;base64,".
Proof.
  split; [reflexivity|]. split; [|vm_compute; reflexivity].
  apply (proj2 (proj2 (C6_export_fails_iff_no_image sampleToDataURL wideRendered))
           img800x400).
  vm_compute. reflexivity.
Defined.

Lemma C7_counterexample :
  fontSize styled400 = of_Z 60
  /\ textColor styled400 = js "#ff0000"
  /\ fontSize initial = of_Z 40
  /\ textColor initial = js "#ffffff"
  /\ fontSize (remix page400 styled400) = of_Z 60
  /\ fontSize (remix page400 styled400) <> fontSize initial
  /\ textColor (remix page400 styled400) = js "#ff0000"
  /\ textColor (remix page400 styled400) <> textColor initial.
Proof.
  split; [num_eq|]. split; [vm_compute; reflexivity|].
  split; [num_eq|]. split; [vm_compute; reflexivity|].
  split; [num_eq|]. split; [num_neq|].
  split; [vm_compute; reflexivity|vm_compute; discriminate].
Qed.

Lemma C8_counterexample :
  clientWidth page0 = zero
  /\ topTextPosition wideRendered = Some {| rx := n0_5; ry := lit 6 25 |}
  /\ bottomTextPosition wideRendered = Some {| rx := n0_5; ry := lit 23 25 |}
  /\ HTMLCanvasElement.width (canvas wideRendered) = of_Z 400
  /\ HTMLCanvasElement.width
       (canvas (redrawCanvas sampleUpperCase page0 wideRendered)) = zero
  /\ List.length
       (HTMLCanvasElement.drawn
          (canvas (redrawCanvas sampleUpperCase page0 wideRendered))) = 6%nat
  /\ redrawCanvas sampleUpperCase page0 wideRendered <> wideRendered.
Proof.
  split; [reflexivity|]. split; [anchor_eq|]. split; [anchor_eq|].
  split; [num_eq|]. split; [num_eq|]. split; [vm_compute; reflexivity|].
  intros E.
  apply (f_equal (fun s => HTMLCanvasElement.width (canvas s))) in E.
  revert E. num_neq.
Qed.

Lemma C8_witness :
  clientWidth page0 = zero
  /\ topTextPosition (redrawCanvas sampleUpperCase page0 wideRendered)
     = topTextPosition wideRendered
  /\ bottomTextPosition (redrawCanvas sampleUpperCase page0 wideRendered)
     = bottomTextPosition wideRendered
  /\ fontSize (redrawCanvas sampleUpperCase page0 wideRendered)
     = fontSize wideRendered
  /\ topTextPosition (redrawCanvas sampleUpperCase page0 wideLoaded) = None
  /\ HTMLCanvasElement.drawn
       (canvas (redrawCanvas sampleUpperCase page0 wideLoaded)) = [].
Proof.
  split; [reflexivity|].
  destruct (C8_degenerate_render_keeps_state sampleUpperCase page0 wideRendered
              (or_introl eq_refl)) as (Ht & Hb & Hsame & _).
  destruct Hsame as (_ & _ & _ & _ & _ & _ & _ & Hfs & _).
  split; [exact Ht|]. split; [exact Hb|]. split; [exact Hfs|].
  destruct (C8_degenerate_render_keeps_state sampleUpperCase page0 wideLoaded
              (or_introl eq_refl)) as (Ht0 & _).
  split; [rewrite Ht0; reflexivity|vm_compute; reflexivity].
Defined.


Lemma C10_witness :
  spaces <> [] /\ forallb isWhiteSpace spaces = true
  /\ trim spaces = []
  /\ isMouseOverText sampleUpperCase sampleMeasureText page400
       (set_topText spaces square400) (of_Z 200) (of_Z 40) spaces
       (Some {| rx := n0_5; ry := lit 1 10 |}) = false
  /\ isDragging
       (handleDragStart sampleUpperCase sampleMeasureText page400
          (set_topText spaces square400) (of_Z 200) (of_Z 40)) = false.
Proof.
  assert (Hne : spaces <> []) by discriminate.
  assert (Hws : forallb isWhiteSpace spaces = true) by reflexivity.
  split; [exact Hne|]. split; [exact Hws|].
  destruct (C10_whitespace_only_never_hit sampleUpperCase sampleMeasureText
              page400 (set_topText spaces square400) spaces Hne Hws)
    as (Htrim & Hhit & _).
  split; [exact Htrim|]. split; [apply Hhit|vm_compute; reflexivity].
Defined.

(* ------------------------------------------------------------------------- *)
(** ** Rendering twice, and runs of events *)

Ltac state_cases d s :=
  destruct s as [im0 ui0 ni0 bi0 si0 tt0 bt0 fs0 tc0 [tp0|] [bp0|] dg0 dt0 dx0 dy0 cv0 cu0];
  destruct d as [[|] cw0 rc0]; destruct im0 as [img0|].

Section Sessions.

Variable toUpperCase : jsstring -> jsstring.
Variable measureText : number -> jsstring -> number.

(** [redrawCanvas] in its three steps. *)
Lemma redrawCanvas_steps (d : Dom) (s : State) (img : HTMLImageElement.t) :
  ctx d = true -> image s = Some img ->
  redrawCanvas toUpperCase d s
  = finishDraw toUpperCase img (placeAnchors d (sizeCanvas d img s)).
Proof.
  intros Hc Hi. unfold redrawCanvas. rewrite Hc, Hi.
  destruct s. reflexivity.
Qed.

Lemma sizeCanvas_finishDraw (d : Dom) (img img' : HTMLImageElement.t) (s : State) :
  sizeCanvas d img (finishDraw toUpperCase img' s) = sizeCanvas d img s.
Proof.
  unfold finishDraw.
  destruct (topTextPosition s) as [tp|]; [|reflexivity].
  destruct (bottomTextPosition s) as [bp|]; [|reflexivity].
  destruct s. reflexivity.
Qed.

Lemma placeAnchors_canvas (d : Dom) (s : State) :
  canvas (placeAnchors d s) = canvas s.
Proof.
  unfold placeAnchors, resetTextPositions.
  destruct (is_none (topTextPosition s)); [|reflexivity].
  destruct (negb (ctx d) || is_none (image s)
            || falsy (HTMLCanvasElement.width (canvas s))
            || falsy (HTMLCanvasElement.height (canvas s))); [reflexivity|].
  destruct s. reflexivity.
Qed.

Lemma sizeCanvas_sized (d : Dom) (img : HTMLImageElement.t) (s : State) :
  canvas s = HTMLCanvasElement.mk (scaledWidth d img) (scaledHeight d img) [] ->
  sizeCanvas d img s = s.
Proof.
  intros H. destruct s. simpl in H. subst. reflexivity.
Qed.

Lemma sizeCanvas_canvas (d : Dom) (img : HTMLImageElement.t) (s : State) :
  canvas (sizeCanvas d img s)
  = HTMLCanvasElement.mk (scaledWidth d img) (scaledHeight d img) [].
Proof. destruct s. reflexivity. Qed.

Lemma placeAnchors_idempotent (d : Dom) (s : State) :
  placeAnchors d (placeAnchors d s) = placeAnchors d s.
Proof.
  unfold placeAnchors at 2 3.
  destruct (is_none (topTextPosition s)) eqn:Et.
  - unfold resetTextPositions.
    destruct (negb (ctx d) || is_none (image s)
              || falsy (HTMLCanvasElement.width (canvas s))
              || falsy (HTMLCanvasElement.height (canvas s))) eqn:Eg.
    + unfold placeAnchors, resetTextPositions. rewrite Et, Eg. reflexivity.
    + unfold placeAnchors. destruct s. reflexivity.
  - unfold placeAnchors. rewrite Et. reflexivity.
Qed.

Lemma finishDraw_image (img : HTMLImageElement.t) (s : State) :
  image (finishDraw toUpperCase img s) = image s.
Proof.
  unfold finishDraw.
  destruct (topTextPosition s) as [tp|]; [|reflexivity].
  destruct (bottomTextPosition s) as [bp|]; [|reflexivity].
  destruct s. reflexivity.
Qed.

Lemma placeAnchors_image (d : Dom) (s : State) :
  image (placeAnchors d s) = image s.
Proof.
  unfold placeAnchors, resetTextPositions.
  destruct (is_none (topTextPosition s)); [|reflexivity].
  destruct (negb (ctx d) || is_none (image s)
            || falsy (HTMLCanvasElement.width (canvas s))
            || falsy (HTMLCanvasElement.height (canvas s))); [reflexivity|].
  destruct s. reflexivity.
Qed.

Lemma sizeCanvas_image (d : Dom) (img : HTMLImageElement.t) (s : State) :
  image (sizeCanvas d img s) = image s.
Proof. destruct s. reflexivity. Qed.

(** A render of a rendered state, on the same page, changes nothing. *)
Lemma redrawCanvas_twice (d : Dom) (s : State) :
  redrawCanvas toUpperCase d (redrawCanvas toUpperCase d s)
  = redrawCanvas toUpperCase d s.
Proof.
  destruct (ctx d) eqn:Hc;
    [|rewrite !(redrawCanvas_no_ctx toUpperCase d) by exact Hc; reflexivity].
  destruct (image s) as [img|] eqn:Hi;
    [|rewrite (redrawCanvas_no_image toUpperCase d s Hi);
      apply redrawCanvas_no_image; exact Hi].
  rewrite (redrawCanvas_steps d s img Hc Hi).
  rewrite (redrawCanvas_steps d _ img Hc).
  - rewrite sizeCanvas_finishDraw.
    rewrite (sizeCanvas_sized d img (placeAnchors d (sizeCanvas d img s))).
    + rewrite placeAnchors_idempotent. reflexivity.
    + rewrite placeAnchors_canvas. apply sizeCanvas_canvas.
  - rewrite finishDraw_image, placeAnchors_image, sizeCanvas_image. exact Hi.
Qed.

(** X1.  Rendering is idempotent: however often [redrawCanvas] runs on the
    same page, the state is the one after the first render, canvas and
    drawing calls included. *)
Theorem redrawCanvas_idempotent (d : Dom) (s : State) (n : nat) :
  Nat.iter (S n) (redrawCanvas toUpperCase d) s = redrawCanvas toUpperCase d s.
Proof.
  induction n as [|n IH]; [reflexivity|].
  change (Nat.iter (S (S n)) (redrawCanvas toUpperCase d) s)
    with (redrawCanvas toUpperCase d (Nat.iter (S n) (redrawCanvas toUpperCase d) s)).
  rewrite IH. apply redrawCanvas_twice.
Qed.

(** What a render does to the anchors: nothing, or it places both. *)
Lemma redrawCanvas_anchor_cases (d : Dom) (s : State) :
  let s' := redrawCanvas toUpperCase d s in
  (topTextPosition s' = topTextPosition s
   /\ bottomTextPosition s' = bottomTextPosition s)
  \/ (topTextPosition s = None
      /\ exists tp bp, topTextPosition s' = Some tp
                       /\ bottomTextPosition s' = Some bp).
Proof.
  cbv zeta.
  destruct (ctx d) eqn:Hc;
    [|rewrite (redrawCanvas_no_ctx toUpperCase d s Hc); left; split; reflexivity].
  destruct (image s) as [img|] eqn:Hi;
    [|rewrite (redrawCanvas_no_image toUpperCase d s Hi); left; split; reflexivity].
  destruct (topTextPosition s) as [tp|] eqn:Ht.
  - left. destruct (redrawCanvas_anchors_kept toUpperCase d s tp Ht) as [H1 H2].
    split; assumption.
  - destruct (falsy (scaledWidth d img) || falsy (scaledHeight d img)) eqn:Hdeg.
    + left.
      destruct (redrawCanvas_anchors_degenerate toUpperCase d s img Hi Hdeg)
        as [H1 H2].
      rewrite Ht in H1. split; assumption.
    + right. apply orb_false_iff in Hdeg. destruct Hdeg as [Hw Hh].
      destruct (redrawCanvas_anchors_default toUpperCase d s img Hc Hi Ht Hw Hh)
        as [H1 H2].
      split; [reflexivity|]. eexists. eexists. split; eassumption.
Qed.

Lemma session_ok_ext (s s' : State) :
  topTextPosition s' = topTextPosition s ->
  bottomTextPosition s' = bottomTextPosition s ->
  isDragging s' = isDragging s -> draggingText s' = draggingText s ->
  session_ok s -> session_ok s'.
Proof.
  unfold session_ok. intros -> -> -> ->. tauto.
Qed.

Lemma session_ok_redrawCanvas (d : Dom) (s : State) :
  session_ok s -> session_ok (redrawCanvas toUpperCase d s).
Proof.
  intros [Ha Hd].
  destruct (redrawCanvas_same_content toUpperCase d s)
    as (_ & _ & _ & _ & _ & _ & _ & _ & _ & Hg & Hdt & _).
  unfold session_ok. rewrite Hg, Hdt. split; [|exact Hd].
  destruct (redrawCanvas_anchor_cases d s) as [[H1 H2] | [_ (tp & bp & H1 & H2)]].
  - rewrite H1, H2. exact Ha.
  - rewrite H2. discriminate.
Qed.

Lemma session_ok_handleDragStart (d : Dom) (s : State) (x y : number) :
  session_ok s -> session_ok (handleDragStart toUpperCase measureText d s x y).
Proof.
  intros H. unfold handleDragStart.
  destruct (topTextPosition s) as [tp|] eqn:Et; [|exact H].
  destruct (bottomTextPosition s) as [bp|] eqn:Eb; [|exact H].
  destruct (getCanvasCoordinates d s x y) as [mouseX mouseY].
  destruct (isMouseOverText _ _ _ _ _ _ _ _);
    [|destruct (isMouseOverText _ _ _ _ _ _ _ _); [|exact H]];
    destruct s; simpl in *; unfold session_ok; simpl;
    (split; [rewrite Eb; discriminate|split; [discriminate|reflexivity]]).
Qed.

Lemma session_ok_handleDragMove (d : Dom) (s : State) (x y : number) :
  session_ok s -> session_ok (handleDragMove toUpperCase measureText d s x y).
Proof.
  intros H. unfold handleDragMove.
  destruct (getCanvasCoordinates d s x y) as [mouseX mouseY].
  match goal with |- context [set_cursor ?c s] => generalize c end. intros c.
  destruct s as [im ui ni bi si tt bt fs tc tpo bpo dg dt sx sy cv cu].
  destruct H as [Ha Hd]. simpl in Ha, Hd.
  cbn [set_cursor isDragging topTextPosition bottomTextPosition draggingText
       dragStartX dragStartY canvas].
  destruct dg; [|split; assumption].
  destruct tpo as [tp|]; [|split; assumption].
  destruct bpo as [bp|]; [|split; assumption].
  apply session_ok_redrawCanvas.
  destruct dt as [[|]|]; unfold session_ok; simpl;
    (split; [discriminate|exact Hd]).
Qed.

Lemma session_ok_step (d : Dom) (s : State) (e : Event) :
  session_ok s -> session_ok (step toUpperCase measureText d s e).
Proof.
  intros H. destruct e; simpl step.
  - apply (session_ok_ext s); try (destruct s; reflexivity). exact H.
  - unfold setBaseImage_onload. apply session_ok_redrawCanvas.
    destruct H as [_ Hd]. destruct s. unfold session_ok. simpl in *.
    split; [congruence|exact Hd].
  - apply (session_ok_ext s); try (destruct s, d as [[|] ? ?]; reflexivity).
    exact H.
  - apply session_ok_redrawCanvas.
    apply (session_ok_ext s); try (destruct s; reflexivity). exact H.
  - apply session_ok_redrawCanvas.
    apply (session_ok_ext s); try (destruct s; reflexivity). exact H.
  - apply session_ok_redrawCanvas.
    apply (session_ok_ext s); try (destruct s; reflexivity). exact H.
  - apply session_ok_redrawCanvas.
    apply (session_ok_ext s); try (destruct s; reflexivity). exact H.
  - apply session_ok_handleDragStart. exact H.
  - apply session_ok_handleDragMove. exact H.
  - unfold handleDragEnd. destruct (isDragging s) eqn:Eg; [|exact H].
    destruct H as [Ha _]. destruct s. unfold session_ok. simpl in *.
    split; [exact Ha|]. split; [discriminate|congruence].
  - apply session_ok_redrawCanvas. exact H.
  - destruct H as [_ Hd]. destruct s, d as [[|] ? ?]; unfold session_ok; simpl in *;
      (split; [congruence|exact Hd]).
Qed.

Lemma session_ok_run (es : list (Dom * Event)) (s : State) :
  session_ok s -> session_ok (run toUpperCase measureText es s).
Proof.
  revert s. induction es as [|[d e] es IH]; intros s H; [exact H|].
  simpl. apply IH. apply session_ok_step. exact H.
Qed.

(** X2.  In every state the editor reaches from its start, whatever the
    events and the pages they are handled on, a top anchor comes with a bottom
    anchor and a drag is active exactly when it has a target. *)
Theorem reachable_session_ok (es : list (Dom * Event)) :
  session_ok (run toUpperCase measureText es initial).
Proof.
  apply session_ok_run. unfold session_ok. simpl.
  split; [congruence|]. split; [discriminate|congruence].
Qed.

(** A pointer move outside a drag only sets the cursor. *)
Lemma handleDragMove_hover (d : Dom) (s : State) (x y : number) :
  isDragging s = false ->
  exists c, handleDragMove toUpperCase measureText d s x y = set_cursor c s.
Proof.
  intros H. unfold handleDragMove.
  destruct (getCanvasCoordinates d s x y) as [mouseX mouseY].
  match goal with |- context [set_cursor ?c s] => exists c; generalize c end.
  intros c. destruct s. simpl in H. subst. reflexivity.
Qed.

Lemma hover_run (ms : list (Dom * Event)) (s : State) :
  forallb (fun de => is_move (snd de)) ms = true ->
  isDragging s = false ->
  exists c, run toUpperCase measureText ms s = set_cursor c s.
Proof.
  revert s. induction ms as [|[d e] ms IH]; intros s Hm Hd.
  - exists (cursor s). destruct s. reflexivity.
  - simpl in Hm. apply andb_true_iff in Hm. destruct Hm as [He Hm].
    destruct e; try discriminate. simpl.
    destruct (handleDragMove_hover d s clientX clientY Hd) as [c Hc].
    rewrite Hc.
    destruct (IH (set_cursor c s) Hm) as [c' Hc'].
    + destruct s. exact Hd.
    + exists c'. rewrite Hc'. destruct s. reflexivity.
Qed.

(** X3.  Releasing the pointer ends the drag for good: after a pointer-up,
    pointer moves, however many and on whatever pages, leave the anchors, the
    canvas with what is drawn on it, the texts and the styles as they were at
    the release; only the cursor follows the pointer. *)
Theorem pointer_up_then_moves_change_nothing
  (d0 : Dom) (ms : list (Dom * Event)) (s : State) :
  forallb (fun de => is_move (snd de)) ms = true ->
  let s' := run toUpperCase measureText ((d0, PointerUp) :: ms) s in
  isDragging s' = false
  /\ topTextPosition s' = topTextPosition s
  /\ bottomTextPosition s' = bottomTextPosition s
  /\ canvas s' = canvas s
  /\ topText s' = topText s /\ bottomText s' = bottomText s
  /\ fontSize s' = fontSize s /\ textColor s' = textColor s
  /\ image s' = image s.
Proof.
  intros Hm. cbv zeta. simpl run.
  change (fold_left _ ms ?x) with (run toUpperCase measureText ms x).
  assert (Hend : isDragging (handleDragEnd s) = false).
  { unfold handleDragEnd. destruct (isDragging s) eqn:E; [|exact E].
    destruct s. reflexivity. }
  destruct (hover_run ms (handleDragEnd s) Hm Hend) as [c Hc].
  rewrite Hc. unfold handleDragEnd.
  destruct s as [im ui ni bi si tt bt fs tc tpo bpo [|] dt sx sy cv cu];
    simpl; repeat split; reflexivity.
Qed.

(** X4.  Edits of the texts, the font size and the colour, and resizes, never
    move an established anchor: after any run of them the top anchor and the
    bottom anchor are the ones from before.  In particular a new font size
    does not place the texts anew. *)
Theorem edits_keep_anchors (es : list (Dom * Event)) (s : State) (p : Position) :
  forallb (fun de => is_edit (snd de)) es = true ->
  topTextPosition s = Some p ->
  topTextPosition (run toUpperCase measureText es s) = Some p
  /\ bottomTextPosition (run toUpperCase measureText es s) = bottomTextPosition s.
Proof.
  revert s. induction es as [|[d e] es IH]; intros s He Ht.
  - split; [exact Ht|reflexivity].
  - simpl in He. apply andb_true_iff in He. destruct He as [He Hes].
    simpl run.
    change (fold_left _ es ?x) with (run toUpperCase measureText es x).
    assert (Hstep : topTextPosition (step toUpperCase measureText d s e) = Some p
                    /\ bottomTextPosition (step toUpperCase measureText d s e)
                       = bottomTextPosition s).
    { destruct e; try discriminate; simpl step;
        match goal with
        | |- context [redrawCanvas toUpperCase d ?st] =>
            destruct (redrawCanvas_anchors_kept toUpperCase d st p) as [H1 H2];
            [destruct s; exact Ht|];
            rewrite H1, H2; split; [reflexivity|destruct s; reflexivity]
        end. }
    destruct Hstep as [H1 H2].
    destruct (IH _ Hes H1) as [H3 H4].
    split; [exact H3|]. rewrite H4. exact H2.
Qed.








End Sessions.

(* ------------------------------------------------------------------------- *)
(** ** The roles in the image tray *)

Lemma In_without (x i : Z) (ids : list Z) :
  In x (without i ids) <-> In x ids /\ x <> i.
Proof.
  unfold without. rewrite filter_In, negb_true_iff, Z.eqb_neq. tauto.
Qed.

Lemma NoDup_without (i : Z) (ids : list Z) : NoDup ids -> NoDup (without i ids).
Proof. apply NoDup_filter. Qed.

Lemma without_absent (i : Z) (ids : list Z) : ~ In i ids -> without i ids = ids.
Proof.
  induction ids as [|j r IH]; simpl; [reflexivity|]. intros H.
  destruct (Z.eqb_spec j i) as [->|Hne]; simpl.
  - exfalso. apply H. left. reflexivity.
  - f_equal. apply IH. intros Hin. apply H. right. exact Hin.
Qed.

Lemma map_id_withoutImage (i : Z) (imgs : list ImageData) :
  map id (withoutImage i imgs) = without i (map id imgs).
Proof.
  induction imgs as [|img r IH]; simpl; [reflexivity|].
  destruct (negb (id img =? i)%Z); simpl; rewrite IH; reflexivity.
Qed.

Lemma includes_id_In (ids : list Z) (i : Z) : includes_id ids i = true <-> In i ids.
Proof.
  unfold includes_id. rewrite existsb_exists. split.
  - intros [x [Hin Heq]]. apply Z.eqb_eq in Heq. subst. exact Hin.
  - intros Hin. exists i. split; [exact Hin|apply Z.eqb_refl].
Qed.

Lemma nth_error_id_In (imgs : list ImageData) (n : nat) (img : ImageData) :
  nth_error imgs n = Some img -> In (id img) (map id imgs).
Proof. intros H. apply in_map. apply (nth_error_In imgs n H). Qed.

Lemma tray_inv_start : tray_inv [] 0%Z None [].
Proof.
  unfold tray_inv. repeat split; try constructor; try discriminate.
  intros x H. destruct H.
Qed.

Lemma tray_inv_null (ids : list Z) (next : Z) (base : option Z) (sources : list Z) :
  tray_inv ids next base sources -> tray_inv ids next None sources.
Proof.
  intros (H1 & H2 & H3 & H4 & _). repeat split; try assumption; discriminate.
Qed.

Lemma tray_inv_base (ids : list Z) (next : Z) (base : option Z) (sources : list Z)
  (x : Z) :
  tray_inv ids next base sources -> In x ids ->
  tray_inv ids next (Some x) (without x sources).
Proof.
  intros (H1 & H2 & H3 & H4 & _) Hx. unfold tray_inv.
  split; [exact H1|]. split; [exact H2|].
  split; [apply NoDup_without; exact H3|]. split.
  - intros y Hy. apply In_without in Hy. apply H4. tauto.
  - intros b Hb. injection Hb as <-. split; [exact Hx|].
    rewrite In_without. tauto.
Qed.

Lemma tray_inv_push (ids : list Z) (next : Z) (base : option Z) (sources : list Z) :
  tray_inv ids next base sources ->
  tray_inv (ids ++ [next]) (next + 1)%Z base sources.
Proof.
  intros (H1 & H2 & H3 & H4 & H5). unfold tray_inv.
  assert (Hfresh : ~ In next ids).
  { intros Hin. rewrite Forall_forall in H2. specialize (H2 next Hin). lia. }
  split.
  { apply NoDup_rev in H1. rewrite <- (rev_involutive (ids ++ [next])).
    apply NoDup_rev. rewrite rev_app_distr. simpl. constructor; [|exact H1].
    rewrite <- in_rev. exact Hfresh. }
  split.
  { apply Forall_app. split.
    - apply (Forall_impl _ (P := fun i => (i < next)%Z)); [intros; lia|exact H2].
    - constructor; [lia|constructor]. }
  split; [exact H3|]. split.
  - intros y Hy. apply in_or_app. left. apply H4. exact Hy.
  - intros b Hb. destruct (H5 b Hb) as [Hin Hns].
    split; [apply in_or_app; left; exact Hin|exact Hns].
Qed.

Lemma tray_inv_no_sources (ids : list Z) (next : Z) (base : option Z)
  (sources : list Z) :
  tray_inv ids next base sources -> tray_inv ids next base [].
Proof.
  intros (H1 & H2 & _ & _ & H5). unfold tray_inv.
  split; [exact H1|]. split; [exact H2|]. split; [constructor|]. split.
  - intros y Hy. destruct Hy.
  - intros b Hb. destruct (H5 b Hb) as [Hin _]. split; [exact Hin|intros []].
Qed.

Lemma tray_inv_source (ids : list Z) (next : Z) (base : option Z) (sources : list Z)
  (x : Z) :
  tray_inv ids next base sources -> In x ids -> ~ In x sources -> base <> Some x ->
  tray_inv ids next base (sources ++ [x]).
Proof.
  intros (H1 & H2 & H3 & H4 & H5) Hx Hns Hnb. unfold tray_inv.
  split; [exact H1|]. split; [exact H2|]. split.
  { apply NoDup_rev in H3. rewrite <- (rev_involutive (sources ++ [x])).
    apply NoDup_rev. rewrite rev_app_distr. simpl. constructor; [|exact H3].
    rewrite <- in_rev. exact Hns. }
  split.
  - intros y Hy. apply in_app_or in Hy. destruct Hy as [Hy|[<-|[]]];
      [apply H4; exact Hy|exact Hx].
  - intros b Hb. destruct (H5 b Hb) as [Hin Hnot]. split; [exact Hin|].
    intros Hy. apply in_app_or in Hy. destruct Hy as [Hy|[<-|[]]];
      [exact (Hnot Hy)|congruence].
Qed.

Lemma tray_inv_remove (ids : list Z) (next : Z) (base : option Z) (sources : list Z)
  (x : Z) :
  tray_inv ids next base sources ->
  tray_inv (without x ids) next
           (match base with
            | Some b => if (b =? x)%Z then None else Some b
            | None => None
            end)
           (without x sources).
Proof.
  intros (H1 & H2 & H3 & H4 & H5). unfold tray_inv.
  split; [apply NoDup_without; exact H1|]. split.
  { rewrite Forall_forall in *. intros y Hy. apply In_without in Hy.
    apply H2. tauto. }
  split; [apply NoDup_without; exact H3|]. split.
  - intros y Hy. apply In_without in Hy. apply In_without.
    split; [apply H4|]; tauto.
  - intros b Hb. destruct base as [b0|]; [|discriminate].
    destruct (Z.eqb_spec b0 x) as [->|Hne]; [discriminate|].
    injection Hb as <-. destruct (H5 b0 eq_refl) as [Hin Hnot].
    split; [apply In_without; tauto|]. rewrite In_without. tauto.
Qed.

Lemma tray_ok_ext (s s' : State) :
  uploadedImages s' = uploadedImages s -> nextImageId s' = nextImageId s ->
  baseImageId s' = baseImageId s -> sourceImageIds s' = sourceImageIds s ->
  tray_ok s -> tray_ok s'.
Proof. unfold tray_ok. intros -> -> -> ->. tauto. Qed.

Lemma tray_ok_setBaseImage_null (d : Dom) (s : State) :
  tray_ok s -> tray_ok (setBaseImage_null d s).
Proof.
  unfold tray_ok. intros H. apply tray_inv_null in H.
  destruct s, d as [[|] ? ?]; exact H.
Qed.

Lemma tray_ok_setBaseImage_start (imgData : ImageData) (s : State) :
  tray_ok s -> In (id imgData) (map id (uploadedImages s)) ->
  tray_ok (setBaseImage_start imgData s).
Proof.
  unfold tray_ok. intros H Hin.
  apply (tray_inv_base _ _ _ _ (id imgData)) in H; [|exact Hin].
  destruct s; exact H.
Qed.

Lemma tray_ok_push (src : jsstring) (s : State) :
  tray_ok s ->
  tray_ok (set_uploadedImages
             (uploadedImages (set_nextImageId (nextImageId s + 1)%Z s)
              ++ [{| id := nextImageId s; data_src := src |}])
             (set_nextImageId (nextImageId s + 1)%Z s)).
Proof.
  unfold tray_ok. intros H. apply tray_inv_push in H.
  destruct s; simpl in *. rewrite map_app. exact H.
Qed.

Lemma pushed_id_In (src : jsstring) (s : State) :
  In (nextImageId s)
     (map id (uploadedImages
                (set_uploadedImages
                   (uploadedImages (set_nextImageId (nextImageId s + 1)%Z s)
                    ++ [{| id := nextImageId s; data_src := src |}])
                   (set_nextImageId (nextImageId s + 1)%Z s)))).
Proof.
  destruct s; simpl. rewrite map_app. apply in_or_app. right. left. reflexivity.
Qed.

Lemma tray_ok_fileLoaded (dataUrl : jsstring) (s : State) :
  tray_ok s -> tray_ok (fileLoaded dataUrl s).
Proof.
  intros H. unfold fileLoaded. cbv zeta.
  destruct (_ =? 1)%nat.
  - apply tray_ok_setBaseImage_start; [apply tray_ok_push; exact H|].
    apply pushed_id_In.
  - apply tray_ok_push. exact H.
Qed.

Lemma tray_ok_imageGenerated (src : jsstring) (s : State) :
  tray_ok s -> tray_ok (imageGenerated src s).
Proof.
  intros H. unfold imageGenerated. cbv zeta.
  apply tray_ok_setBaseImage_start; [apply tray_ok_push; exact H|].
  apply pushed_id_In.
Qed.

Lemma tray_ok_imagesCombined (src : jsstring) (s : State) :
  tray_ok s -> tray_ok (imagesCombined src s).
Proof.
  intros H. unfold imagesCombined. cbv zeta.
  apply tray_ok_setBaseImage_start.
  - pose proof (tray_ok_push src s H) as Hp. unfold tray_ok in *.
    apply tray_inv_no_sources in Hp. destruct s; exact Hp.
  - pose proof (pushed_id_In src s) as Hin. destruct s; exact Hin.
Qed.

Lemma tray_ok_thumbnailClick (d : Dom) (imgData : ImageData) (s : State) :
  tray_ok s -> In (id imgData) (map id (uploadedImages s)) ->
  tray_ok (thumbnailClick d imgData s).
Proof.
  intros H Hin. unfold thumbnailClick. cbv zeta.
  destruct (includes_id (sourceImageIds s) (id imgData)) eqn:Esrc.
  - apply tray_ok_setBaseImage_start.
    + unfold tray_ok in *. destruct H as (H1 & H2 & H3 & H4 & H5).
      destruct s; simpl in *. unfold tray_inv.
      split; [exact H1|]. split; [exact H2|].
      split; [apply NoDup_without; exact H3|]. split.
      * intros y Hy. apply In_without in Hy. apply H4. tauto.
      * intros b Hb. destruct (H5 b Hb) as [Hb1 Hb2]. split; [exact Hb1|].
        rewrite In_without. tauto.
    + destruct s; exact Hin.
  - assert (Hns : ~ In (id imgData) (sourceImageIds s)).
    { intros Hc. apply includes_id_In in Hc. congruence. }
    destruct (baseImageId s) as [b|] eqn:Eb.
    + destruct (Z.eqb_spec (id imgData) b) as [Heq|Hne].
      * apply tray_ok_setBaseImage_null. exact H.
      * unfold tray_ok in *.
        apply (tray_inv_source _ _ _ _ (id imgData)) in H;
          [|exact Hin|exact Hns|rewrite Eb; congruence].
        destruct s; exact H.
    + unfold tray_ok in *.
      apply (tray_inv_source _ _ _ _ (id imgData)) in H;
        [|exact Hin|exact Hns|rewrite Eb; discriminate].
      destruct s; exact H.
Qed.

Lemma tray_ok_thumbnailRemove (d : Dom) (imgData : ImageData) (s : State) :
  tray_ok s -> tray_ok (thumbnailRemove d imgData s).
Proof.
  unfold tray_ok. intros H. apply (tray_inv_remove _ _ _ _ (id imgData)) in H.
  rewrite <- map_id_withoutImage in H.
  unfold thumbnailRemove. cbv zeta.
  destruct s as [im ui ni bi si tt bt fs tc tpo bpo dg dt sx sy cv cu].
  cbn [set_uploadedImages baseImageId uploadedImages nextImageId sourceImageIds] in *.
  destruct bi as [b|]; [destruct (b =? id imgData)%Z|];
    destruct d as [[|] ? ?]; exact H.
Qed.

Lemma tray_ok_removeImageClick (d : Dom) (s : State) :
  tray_ok s -> tray_ok (removeImageClick d s).
Proof.
  intros H. unfold removeImageClick.
  destruct (baseImageId s) as [b|] eqn:Eb; [|exact H].
  unfold tray_ok in *.
  assert (Hns : ~ In b (sourceImageIds s)).
  { destruct H as (_ & _ & _ & _ & H5). destruct (H5 b Eb) as [_ Hn]. exact Hn. }
  apply (tray_inv_remove _ _ _ _ b) in H.
  rewrite <- map_id_withoutImage, Eb, Z.eqb_refl, (without_absent b _ Hns) in H.
  destruct s, d as [[|] ? ?]; exact H.
Qed.

Section TrayRuns.

Variable toUpperCase : jsstring -> jsstring.
Variable measureText : number -> jsstring -> number.

Lemma tray_ok_redrawCanvas (d : Dom) (s : State) :
  tray_ok s -> tray_ok (redrawCanvas toUpperCase d s).
Proof.
  destruct (redrawCanvas_same_content toUpperCase d s)
    as (_ & H1 & H2 & H3 & H4 & _).
  apply tray_ok_ext; assumption.
Qed.

Lemma tray_ok_step (d : Dom) (s : State) (e : Event) :
  listens (Listener e) = true -> tray_ok s ->
  tray_ok (step toUpperCase measureText d s e).
Proof.
  intros Hl H. destruct e; simpl step; try discriminate.
  - unfold setBaseImage_onload. apply tray_ok_redrawCanvas.
    apply (tray_ok_ext s); try (destruct s; reflexivity). exact H.
  - apply tray_ok_setBaseImage_null. exact H.
  - apply tray_ok_redrawCanvas.
    apply (tray_ok_ext s); try (destruct s; reflexivity). exact H.
  - apply tray_ok_redrawCanvas.
    apply (tray_ok_ext s); try (destruct s; reflexivity). exact H.
  - apply tray_ok_redrawCanvas.
    apply (tray_ok_ext s); try (destruct s; reflexivity). exact H.
  - apply tray_ok_redrawCanvas.
    apply (tray_ok_ext s); try (destruct s; reflexivity). exact H.
  - unfold handleDragStart.
    destruct (topTextPosition s); [|exact H].
    destruct (bottomTextPosition s); [|exact H].
    destruct (getCanvasCoordinates d s clientX clientY) as [mouseX mouseY].
    destruct (isMouseOverText _ _ _ _ _ _ _ _);
      [|destruct (isMouseOverText _ _ _ _ _ _ _ _); [|exact H]];
      apply (tray_ok_ext s); try (destruct s; reflexivity); exact H.
  - unfold handleDragMove.
    destruct (getCanvasCoordinates d s clientX clientY) as [mouseX mouseY].
    match goal with |- context [set_cursor ?c s] => generalize c end. intros c.
    destruct s as [im ui ni bi si tt bt fs tc tpo bpo dg dt sx sy cv cu].
    cbn [set_cursor isDragging topTextPosition bottomTextPosition draggingText
         dragStartX dragStartY canvas].
    destruct dg; [|exact H]. destruct tpo; [|exact H]. destruct bpo; [|exact H].
    apply tray_ok_redrawCanvas. destruct dt as [[|]|]; exact H.
  - unfold handleDragEnd. destruct (isDragging s); [|exact H].
    apply (tray_ok_ext s); try (destruct s; reflexivity). exact H.
  - apply tray_ok_redrawCanvas. exact H.
  - unfold tray_ok. destruct s, d as [[|] ? ?]; simpl; apply tray_inv_start.
Qed.

Lemma tray_ok_act (d : Dom) (s : State) (a : Action) :
  listens a = true -> tray_ok s -> tray_ok (act toUpperCase measureText d s a).
Proof.
  intros Hl H. destruct a; simpl act.
  - apply tray_ok_fileLoaded. exact H.
  - destruct (nth_error (uploadedImages s) n) as [imgData|] eqn:En; [|exact H].
    apply tray_ok_thumbnailClick; [exact H|]. apply (nth_error_id_In _ n). exact En.
  - destruct (nth_error (uploadedImages s) n) as [imgData|] eqn:En; [|exact H].
    apply tray_ok_thumbnailRemove. exact H.
  - apply tray_ok_removeImageClick. exact H.
  - apply tray_ok_imageGenerated. exact H.
  - apply tray_ok_imagesCombined. exact H.
  - apply tray_ok_step; assumption.
Qed.

Lemma tray_ok_runActions (acts : list (Dom * Action)) (s : State) :
  forallb (fun da => listens (snd da)) acts = true ->
  tray_ok s -> tray_ok (runActions toUpperCase measureText acts s).
Proof.
  revert s. induction acts as [|[d a] acts IH]; intros s Hl H; [exact H|].
  simpl in Hl. apply andb_true_iff in Hl. destruct Hl as [Ha Hl].
  simpl. apply IH; [exact Hl|]. apply tray_ok_act; assumption.
Qed.

Lemma tray_ok_initial : tray_ok initial.
Proof. unfold tray_ok. simpl. apply tray_inv_start. Qed.

End TrayRuns.

Section TrayProperties.

Variable toUpperCase : jsstring -> jsstring.
Variable measureText : number -> jsstring -> number.

(** X7.  An image is never the base image and a source at once, and never a
    source twice, in any state the page reaches from its start: through file
    uploads, clicks on thumbnails and on their remove buttons, the remove-image
    button, images returned by the AI, and the listeners of the canvas and the
    controls. *)
Theorem base_is_never_a_source (acts : list (Dom * Action)) :
  forallb (fun da => listens (snd da)) acts = true ->
  let s := runActions toUpperCase measureText acts initial in
  (forall b, baseImageId s = Some b -> ~ In b (sourceImageIds s))
  /\ NoDup (sourceImageIds s).
Proof.
  intros Hl. cbv zeta.
  pose proof (tray_ok_runActions toUpperCase measureText acts initial Hl
                tray_ok_initial) as (_ & _ & H3 & _ & H5).
  split; [|exact H3]. intros b Hb. destruct (H5 b Hb) as [_ Hn]. exact Hn.
Qed.

(** X8.  In any such state the images of the tray have distinct ids, all below
    [nextImageId], so that the next image gets an id of its own, and the base
    image and every source are images of the tray. *)
Theorem roles_refer_to_the_tray (acts : list (Dom * Action)) :
  forallb (fun da => listens (snd da)) acts = true ->
  let s := runActions toUpperCase measureText acts initial in
  let ids := map id (uploadedImages s) in
  NoDup ids
  /\ (forall i, In i ids -> (i < nextImageId s)%Z)
  /\ (forall i, In i (sourceImageIds s) -> In i ids)
  /\ (forall b, baseImageId s = Some b -> In b ids).
Proof.
  intros Hl. cbv zeta.
  pose proof (tray_ok_runActions toUpperCase measureText acts initial Hl
                tray_ok_initial) as (H1 & H2 & _ & H4 & H5).
  split; [exact H1|]. split; [rewrite Forall_forall in H2; exact H2|].
  split; [exact H4|]. intros b Hb. destruct (H5 b Hb) as [Hin _]. exact Hin.
Qed.

End TrayProperties.

Lemma without_app (i : Z) (a b : list Z) :
  without i (a ++ b) = without i a ++ without i b.
Proof. unfold without. apply filter_app. Qed.

Lemma includes_id_false (ids : list Z) (i : Z) :
  ~ In i ids -> includes_id ids i = false.
Proof.
  intros H. destruct (includes_id ids i) eqn:E; [|reflexivity].
  apply includes_id_In in E. contradiction.
Qed.

Lemma thumbnailClick_of_source (d : Dom) (imgData : ImageData) (s : State) :
  In (id imgData) (sourceImageIds s) ->
  let s' := thumbnailClick d imgData s in
  sourceImageIds s' = without (id imgData) (without (id imgData) (sourceImageIds s))
  /\ baseImageId s' = Some (id imgData)
  /\ uploadedImages s' = uploadedImages s.
Proof.
  intros Hin. cbv zeta. unfold thumbnailClick.
  apply includes_id_In in Hin. rewrite Hin.
  destruct s. repeat split; reflexivity.
Qed.

Lemma thumbnailClick_of_base (d : Dom) (imgData : ImageData) (s : State) :
  ~ In (id imgData) (sourceImageIds s) ->
  baseImageId s = Some (id imgData) ->
  thumbnailClick d imgData s = setBaseImage_null d s.
Proof.
  intros Hns Hb. unfold thumbnailClick.
  rewrite (includes_id_false _ _ Hns), Hb, Z.eqb_refl. reflexivity.
Qed.

Lemma thumbnailClick_of_other (d : Dom) (imgData : ImageData) (s : State) :
  ~ In (id imgData) (sourceImageIds s) ->
  baseImageId s <> Some (id imgData) ->
  thumbnailClick d imgData s
  = set_sourceImageIds (sourceImageIds s ++ [id imgData]) s.
Proof.
  intros Hns Hnb. unfold thumbnailClick. rewrite (includes_id_false _ _ Hns).
  destruct (baseImageId s) as [b|]; [|reflexivity].
  destruct (Z.eqb_spec (id imgData) b) as [Heq|Hne];
    [exfalso; apply Hnb; rewrite Heq; reflexivity|reflexivity].
Qed.

(** X9.  Three clicks on the thumbnail of an image that has no role take it
    through the roles and back: the first makes it a source, the second makes
    it the base image and takes it out of the sources, the third deselects it.
    The sources are then the ones from before, and there is no base image any
    more, whichever image was the base before. *)
Theorem thumbnail_cycle (d1 d2 d3 : Dom) (imgData : ImageData) (s : State) :
  ~ In (id imgData) (sourceImageIds s) ->
  baseImageId s <> Some (id imgData) ->
  let s1 := thumbnailClick d1 imgData s in
  let s2 := thumbnailClick d2 imgData s1 in
  let s3 := thumbnailClick d3 imgData s2 in
  (sourceImageIds s1 = sourceImageIds s ++ [id imgData]
   /\ baseImageId s1 = baseImageId s)
  /\ (sourceImageIds s2 = sourceImageIds s
      /\ baseImageId s2 = Some (id imgData))
  /\ (sourceImageIds s3 = sourceImageIds s
      /\ baseImageId s3 = None
      /\ image s3 = None
      /\ uploadedImages s3 = uploadedImages s).
Proof.
  intros Hns Hnb. cbv zeta.
  rewrite (thumbnailClick_of_other d1 imgData s Hns Hnb).
  set (s1 := set_sourceImageIds (sourceImageIds s ++ [id imgData]) s).
  assert (S1 : sourceImageIds s1 = sourceImageIds s ++ [id imgData])
    by (destruct s; reflexivity).
  assert (B1 : baseImageId s1 = baseImageId s) by (destruct s; reflexivity).
  assert (U1 : uploadedImages s1 = uploadedImages s) by (destruct s; reflexivity).
  assert (Hin : In (id imgData) (sourceImageIds s1)).
  { rewrite S1. apply in_or_app. right. left. reflexivity. }
  destruct (thumbnailClick_of_source d2 imgData s1 Hin) as (S2 & B2 & U2).
  set (s2 := thumbnailClick d2 imgData s1) in *.
  assert (S2' : sourceImageIds s2 = sourceImageIds s).
  { rewrite S2, S1, without_app, (without_absent _ _ Hns). simpl.
    rewrite Z.eqb_refl. simpl. rewrite app_nil_r.
    apply (without_absent _ _ Hns). }
  assert (Hns2 : ~ In (id imgData) (sourceImageIds s2))
    by (rewrite S2'; exact Hns).
  rewrite (thumbnailClick_of_base d3 imgData s2 Hns2 B2).
  split; [split; assumption|]. split; [split; assumption|].
  rewrite <- S2', <- U1, <- U2.
  destruct s2, d3 as [[|] ? ?]; repeat split; reflexivity.
Qed.

(** X10.  Removing a thumbnail removes every trace of the image: its id is no
    id of the tray any more, it is no source and not the base image; the other
    images keep their place in the tray and their roles, and when the removed
    image was the base image the canvas loses its image. *)
Theorem thumbnailRemove_leaves_no_trace (d : Dom) (imgData : ImageData) (s : State) :
  let x := id imgData in
  let s' := thumbnailRemove d imgData s in
  ~ In x (map id (uploadedImages s'))
  /\ ~ In x (sourceImageIds s')
  /\ baseImageId s' <> Some x
  /\ uploadedImages s' = withoutImage x (uploadedImages s)
  /\ sourceImageIds s' = without x (sourceImageIds s)
  /\ (forall b, b <> x -> baseImageId s = Some b ->
      baseImageId s' = Some b /\ image s' = image s /\ canvas s' = canvas s)
  /\ (baseImageId s = Some x -> image s' = None /\ baseImageId s' = None).
Proof.
  cbv zeta. unfold thumbnailRemove. cbv zeta.
  destruct s as [im ui ni bi si tt bt fs tc tpo bpo dg dt sx sy cv cu].
  cbn [set_uploadedImages baseImageId uploadedImages sourceImageIds].
  assert (Hu : ~ In (id imgData) (map id (withoutImage (id imgData) ui))).
  { rewrite map_id_withoutImage, In_without. tauto. }
  assert (Hs : ~ In (id imgData) (without (id imgData) si)).
  { rewrite In_without. tauto. }
  destruct bi as [b|].
  - destruct (Z.eqb_spec b (id imgData)) as [->|Hne].
    + destruct d as [[|] ? ?]; cbn;
        (split; [exact Hu|]); (split; [exact Hs|]);
        (split; [discriminate|]); (split; [reflexivity|]);
        (split; [reflexivity|]);
        (split; [intros b' Hb' Hb; congruence|intros _; split; reflexivity]).
    + cbn. split; [exact Hu|]. split; [exact Hs|]. split; [congruence|].
      split; [reflexivity|]. split; [reflexivity|]. split.
      * intros b' _ Hb. injection Hb as <-. repeat split; reflexivity.
      * intros Hb. congruence.
  - cbn. split; [exact Hu|]. split; [exact Hs|]. split; [discriminate|].
    split; [reflexivity|]. split; [reflexivity|].
    split; [intros b _ Hb; discriminate|intros Hb; discriminate].
Qed.

(* ------------------------------------------------------------------------- *)
(** ** The AI buttons and the guards of their handlers *)

Lemma find_image_In (b : Z) (imgs : list ImageData) :
  In b (map id imgs) -> exists img, find_image b imgs = Some img.
Proof.
  induction imgs as [|img r IH]; simpl; [intros []|].
  intros [Heq|Hin].
  - exists img. rewrite Heq, Z.eqb_refl. reflexivity.
  - destruct (id img =? b)%Z; [exists img; reflexivity|apply IH; exact Hin].
Qed.

Lemma source_images_found (sources : list Z) (imgs : list ImageData) (i : Z) :
  In i sources -> In i (map id imgs) ->
  filter (fun img => includes_id sources (id img)) imgs <> [].
Proof.
  intros Hs Hin. apply in_map_iff in Hin. destruct Hin as [img [Hid Himg]].
  assert (Hf : In img (filter (fun img => includes_id sources (id img)) imgs)).
  { apply filter_In. split; [exact Himg|]. apply includes_id_In.
    rewrite Hid. exact Hs. }
  intros E. rewrite E in Hf. destruct Hf.
Qed.

Lemma is_empty_trim (s : jsstring) :
  is_empty (trim s) = false -> is_empty s = false.
Proof. destruct s; [intros H; exact H|reflexivity]. Qed.

Lemma guards_pass (ai : bool) (promptValue : jsstring) (s : State) :
  tray_ok s ->
  let b := updateActionButtonsState ai promptValue s in
  (generateDisabled b = false -> generateGuard ai promptValue = Proceeds)
  /\ (autoMemeDisabled b = false -> autoMemeGuard ai s = Proceeds)
  /\ (enhanceDisabled b = false -> enhanceGuard ai promptValue s = Proceeds)
  /\ (combineDisabled b = false -> combineGuard ai promptValue s = Proceeds).
Proof.
  intros (_ & _ & _ & H4 & H5). cbv zeta.
  unfold updateActionButtonsState, generateGuard, autoMemeGuard, enhanceGuard,
    combineGuard. cbn [generateDisabled autoMemeDisabled enhanceDisabled combineDisabled].
  assert (Hfind : forall b, baseImageId s = Some b ->
            exists img, find_image b (uploadedImages s) = Some img).
  { intros b Hb. apply find_image_In. apply (H5 b Hb). }
  destruct ai; cbn [negb orb andb];
    [|repeat split; intros H; rewrite ?orb_true_r in H; discriminate].
  rewrite !orb_false_r.
  destruct (is_empty (trim promptValue)) eqn:Ep; cbn [negb andb].
  - split; [discriminate|]. split.
    + destruct (baseImageId s) as [b|] eqn:Eb; [|discriminate]. intros _.
      destruct (Hfind b eq_refl) as [img ->]. reflexivity.
    + rewrite !andb_false_r. split; discriminate.
  - rewrite (is_empty_trim _ Ep). rewrite !andb_true_r. split; [reflexivity|].
    destruct (baseImageId s) as [b|] eqn:Eb; cbn [is_none negb andb];
      [|repeat split; discriminate].
    destruct (Hfind b eq_refl) as [img Himg]. rewrite Himg. cbn [is_none orb].
    split; [reflexivity|]. split; [reflexivity|].
    destruct (sourceImageIds s) as [|i r] eqn:Es; [discriminate|]. intros _.
    cbn [List.length Nat.eqb].
    assert (Hne : filter (fun img => includes_id (i :: r) (id img)) (uploadedImages s)
                  <> []).
    { apply (source_images_found (i :: r) (uploadedImages s) i);
        [left; reflexivity|]. apply H4. left. reflexivity. }
    destruct (filter _ (uploadedImages s)); [congruence|reflexivity].
Qed.

Section Buttons.

Variable toUpperCase : jsstring -> jsstring.
Variable measureText : number -> jsstring -> number.

(** X11.  A button that [updateActionButtonsState] enables leads to its
    request: in every state the page reaches from its start, and for every
    prompt, the click handler of an enabled Generate, Auto-Meme, Enhance or
    Combine button passes its guards, it neither returns at once nor alerts. *)
Theorem enabled_buttons_pass_the_guards
  (acts : list (Dom * Action)) (ai : bool) (promptValue : jsstring) :
  forallb (fun da => listens (snd da)) acts = true ->
  let s := runActions toUpperCase measureText acts initial in
  let b := updateActionButtonsState ai promptValue s in
  (generateDisabled b = false -> generateGuard ai promptValue = Proceeds)
  /\ (autoMemeDisabled b = false -> autoMemeGuard ai s = Proceeds)
  /\ (enhanceDisabled b = false -> enhanceGuard ai promptValue s = Proceeds)
  /\ (combineDisabled b = false -> combineGuard ai promptValue s = Proceeds).
Proof.
  intros Hl. apply guards_pass.
  apply tray_ok_runActions; [exact Hl|apply tray_ok_initial].
Qed.

End Buttons.

(* ------------------------------------------------------------------------- *)
(** ** The messages for the errors of the AI *)




Section MessageProperties.

Variable toLowerCase : jsstring -> jsstring.
Variable toUpperCase : jsstring -> jsstring.
Variable numberToString : number -> jsstring.


Lemma classify_cases (m : jsstring) :
  classify toLowerCase toUpperCase m = apiKeyMessage
  \/ classify toLowerCase toUpperCase m = safetyMessage
  \/ (classify toLowerCase toUpperCase m = m
      /\ includes (toLowerCase m) (js "api key not valid") = false
      /\ includes (toUpperCase m) (js "SAFETY") = false).
Proof.
  unfold classify.
  destruct (includes (toLowerCase m) (js "api key not valid")); [left; reflexivity|].
  destruct (includes (toUpperCase m) (js "SAFETY")); [right; left; reflexivity|].
  right. right. repeat split; reflexivity.
Qed.

(** X13.  A message that mentions an invalid API key or SAFETY is never shown
    as it is: whatever is thrown (an [Error], an object with a message or with
    an [error] that has one, an object that is turned into JSON, a string,
    anything else), the text that comes back is one of the three fixed texts
    or a text that, in lower case, does not include "api key not valid" and,
    in upper case, does not include "SAFETY". *)
Theorem no_raw_api_key_or_safety_text (error : Thrown) (r : jsstring) :
  getApiErrorMessage toLowerCase toUpperCase error = Some r ->
  r = timedOutMessage \/ r = apiKeyMessage \/ r = safetyMessage
  \/ (includes (toLowerCase r) (js "api key not valid") = false
      /\ includes (toUpperCase r) (js "SAFETY") = false).
Proof.
  assert (Hc : forall m, Some (classify toLowerCase toUpperCase m) = Some r ->
             r = timedOutMessage \/ r = apiKeyMessage \/ r = safetyMessage
             \/ (includes (toLowerCase r) (js "api key not valid") = false
                 /\ includes (toUpperCase r) (js "SAFETY") = false)).
  { intros m H. injection H as <-.
    destruct (classify_cases m) as [-> | [-> | (-> & H1 & H2)]]; tauto. }
  destruct error as [message | inner message json | text |]; simpl.
  - unfold errorInstanceMessage.
    destruct (includes message (js "timed out")); [|apply Hc].
    intros H. injection H as <-. left. reflexivity.
  - destruct inner as [[m|]|]; [apply Hc| |].
    + destruct json; [apply Hc|discriminate|apply Hc].
    + destruct message as [m|]; [apply Hc|].
      destruct json; [apply Hc|discriminate|apply Hc].
  - apply Hc.
  - apply Hc.
Qed.

Lemma scanParts_no_image (parts : list Part) (acc : jsstring) :
  Forall (fun q => inlineData q = None) parts ->
  fst (scanParts parts acc) = None.
Proof.
  revert acc. induction parts as [|q r IH]; intros acc H; [reflexivity|].
  inversion H as [|q' r' Hq Hr]; subst. simpl. rewrite Hq.
  destruct (text q) as [[|c t]|]; apply IH; exact Hr.
Qed.

Lemma scanParts_first_image (pre post : list Part) (p : Part)
  (found : jsstring * jsstring) (acc : jsstring) :
  Forall (fun q => inlineData q = None) pre -> inlineData p = Some found ->
  fst (scanParts (pre ++ p :: post) acc) = Some found.
Proof.
  revert acc. induction pre as [|q r IH]; intros acc H Hp.
  - simpl. rewrite Hp. reflexivity.
  - inversion H as [|q' r' Hq Hr]; subst. simpl. rewrite Hq.
    destruct (text q) as [[|c t]|]; apply IH; assumption.
Qed.

(** X14.  Of the answer of the image model the first part with image data
    counts, whatever texts come before it and whatever comes after it: the
    image joins the tray under the id [nextImageId], which goes up by one, and
    is selected as the base image (after a combination the sources are reset),
    and nothing is alerted.  An answer without image data leaves the state as
    it is and alerts. *)
Theorem receiveParts_first_image_wins
  (combine : bool) (pre post : list Part) (p : Part) (mimeType data : jsstring)
  (s : State) :
  Forall (fun q => inlineData q = None) pre ->
  inlineData p = Some (mimeType, data) ->
  let src := js "data:" ++ mimeType ++ js ";base64," ++ data in
  let s' := fst (receiveParts toLowerCase toUpperCase combine (pre ++ p :: post) s) in
  snd (receiveParts toLowerCase toUpperCase combine (pre ++ p :: post) s) = None
  /\ uploadedImages s'
     = uploadedImages s ++ [{| id := nextImageId s; data_src := src |}]
  /\ nextImageId s' = (nextImageId s + 1)%Z
  /\ baseImageId s' = Some (nextImageId s)
  /\ sourceImageIds s'
     = (if combine then [] else without (nextImageId s) (sourceImageIds s))
  /\ (forall parts, Forall (fun q => inlineData q = None) parts ->
      fst (receiveParts toLowerCase toUpperCase combine parts s) = s
      /\ snd (receiveParts toLowerCase toUpperCase combine parts s) <> None).
Proof.
  intros Hpre Hp. cbv zeta. unfold receiveParts.
  pose proof (scanParts_first_image pre post p (mimeType, data) [] Hpre Hp) as Hscan.
  destruct (scanParts (pre ++ p :: post) []) as [found txt]. simpl in Hscan.
  subst found. cbn [fst snd].
  split; [reflexivity|].
  split; [destruct combine, s; reflexivity|].
  split; [destruct combine, s; reflexivity|].
  split; [destruct combine, s; reflexivity|].
  split; [destruct combine, s; reflexivity|].
  intros parts Hall. pose proof (scanParts_no_image parts [] Hall) as Hn.
  destruct (scanParts parts []) as [found txt']. simpl in Hn. subst found.
  cbn [fst snd]. split; [reflexivity|discriminate].
Qed.

End MessageProperties.

(* ------------------------------------------------------------------------- *)
(** ** The image generation endpoint *)

Lemma jsstring_eqb_eq (a b : jsstring) : jsstring_eqb a b = true <-> a = b.
Proof.
  revert b. induction a as [|x a IH]; intros [|y b]; simpl;
    try (split; [discriminate|discriminate]); [tauto|].
  rewrite andb_true_iff, N.eqb_eq, IH. split.
  - intros [-> ->]. reflexivity.
  - intros H. injection H as -> ->. tauto.
Qed.

Section EndpointProperties.

Variable numberToString : number -> jsstring.
Variable apiKey : JsValue.
Variable destructuringMessage : jsstring.

(** X15.  The status of the answer tells what happened: 405 exactly for a
    method other than POST, 400 exactly for a POST with a body whose prompt is
    missing or falsy, 200 exactly for a POST with a truthy prompt that the
    image API answered with ok, and then the answer carries the URL of the
    image with the prompt and the style of the request; every other request
    gets 500. *)
Theorem handler_status
  (fetch : UpstreamRequest -> Upstream) (req : VercelRequest) :
  let res := handler numberToString apiKey destructuringMessage fetch req in
  (status res = 405%Z <-> method req <> js "POST")
  /\ (status res = 400%Z <->
      method req = js "POST"
      /\ exists b, body req = Some b /\ truthy (prompt b) = false)
  /\ (status res = 200%Z <->
      method req = js "POST"
      /\ exists b url, body req = Some b /\ truthy (prompt b) = true
                       /\ fetch (upstreamRequest numberToString apiKey b) = Ok url
                       /\ json res = SuccessJson url (prompt b) (style b))
  /\ (status res = 200%Z \/ status res = 400%Z \/ status res = 405%Z
      \/ status res = 500%Z).
Proof.
  cbv zeta. unfold handler.
  destruct (jsstring_eqb (method req) (js "POST")) eqn:Em; cbn [negb].
  - apply jsstring_eqb_eq in Em.
    destruct (body req) as [b|] eqn:Eb.
    + destruct (truthy (prompt b)) eqn:Ep; cbn [negb].
      * destruct (fetch (upstreamRequest numberToString apiKey b)) as [[m|]|m|url]
          eqn:Ef; cbn [status failed json];
          (split; [split; [discriminate|congruence]|]);
          (split; [split; [discriminate|
                           intros (_ & b' & Hb' & Hp'); congruence]|]).
        -- split; [|tauto]. split; [discriminate|].
           intros (_ & b' & url & Hb' & _ & Hf & _). congruence.
        -- split; [|tauto]. split; [discriminate|].
           intros (_ & b' & url & Hb' & _ & Hf & _). congruence.
        -- split; [|tauto]. split; [discriminate|].
           intros (_ & b' & url & Hb' & _ & Hf & _). congruence.
        -- split; [|tauto]. split; [|reflexivity]. intros _.
           split; [exact Em|]. exists b, url. repeat split; assumption.
      * cbn [status]. split; [split; [discriminate|congruence]|].
        split; [split; [intros _; split; [exact Em|exists b; tauto]|reflexivity]|].
        split; [|tauto]. split; [discriminate|].
        intros (_ & b' & url & Hb' & Hp' & _). congruence.
    + cbn [status failed]. split; [split; [discriminate|congruence]|].
      split; [split; [discriminate|intros (_ & b' & Hb' & _); discriminate]|].
      split; [|tauto]. split; [discriminate|].
      intros (_ & b' & url & Hb' & _). discriminate.
  - assert (Hne : method req <> js "POST").
    { intros E. apply jsstring_eqb_eq in E. congruence. }
    cbn [status]. split; [split; [intros _; exact Hne|reflexivity]|].
    split; [split; [discriminate|intros [E _]; contradiction]|].
    split; [|tauto]. split; [discriminate|intros [E _]; contradiction].
Qed.

(** X16.  The image API is asked only for a POST with a body and a truthy
    prompt: for any other request the answer is made without it, so it is the
    same whatever the API would have said. *)
Theorem handler_asks_upstream_only_for_prompts
  (fetch1 fetch2 : UpstreamRequest -> Upstream) (req : VercelRequest) :
  method req <> js "POST" \/ body req = None
  \/ (exists b, body req = Some b /\ truthy (prompt b) = false) ->
  handler numberToString apiKey destructuringMessage fetch1 req
  = handler numberToString apiKey destructuringMessage fetch2 req.
Proof.
  intros H. unfold handler.
  destruct (jsstring_eqb (method req) (js "POST")) eqn:Em; cbn [negb];
    [|reflexivity].
  apply jsstring_eqb_eq in Em.
  destruct H as [H | [H | (b & Hb & Hp)]]; [contradiction| |].
  - rewrite H. reflexivity.
  - rewrite Hb, Hp. reflexivity.
Qed.

End EndpointProperties.

(* ------------------------------------------------------------------------- *)
(** ** Removing the image, and the export *)

Lemma setBaseImage_null_image (d : Dom) (s : State) :
  image (setBaseImage_null d s) = None /\ baseImageId (setBaseImage_null d s) = None.
Proof. destruct s, d as [[|] ? ?]; split; reflexivity. Qed.

Section Removal.

Variable toUpperCase : jsstring -> jsstring.
Variable toDataURL : HTMLCanvasElement.t -> jsstring -> jsstring.

(** X17.  Once the base image is taken away there is nothing to export: after
    the remove-image button, after a click on the thumbnail of the base image,
    after the removal of that thumbnail, and after the remix button,
    [triggerMemeDownload] returns [false] and offers no download. *)
Theorem export_fails_after_removal (d : Dom) (s : State) :
  (forall b, baseImageId s = Some b ->
     triggerMemeDownload toDataURL (removeImageClick d s) = (false, None))
  /\ (forall imgData, baseImageId s = Some (id imgData) ->
      ~ In (id imgData) (sourceImageIds s) ->
      triggerMemeDownload toDataURL (thumbnailClick d imgData s) = (false, None))
  /\ (forall imgData, baseImageId s = Some (id imgData) ->
      triggerMemeDownload toDataURL (thumbnailRemove d imgData s) = (false, None))
  /\ triggerMemeDownload toDataURL (remix d s) = (false, None).
Proof.
  assert (Hnone : forall s', image s' = None ->
            triggerMemeDownload toDataURL s' = (false, None)).
  { intros s' H. unfold triggerMemeDownload. rewrite H. reflexivity. }
  split; [|split; [|split]].
  - intros b Hb. apply Hnone. unfold removeImageClick. rewrite Hb.
    apply setBaseImage_null_image.
  - intros imgData Hb Hns. apply Hnone.
    rewrite (thumbnailClick_of_base d imgData s Hns Hb).
    apply setBaseImage_null_image.
  - intros imgData Hb. apply Hnone. unfold thumbnailRemove. cbv zeta.
    destruct s as [im ui ni bi si tt bt fs tc tpo bpo dg dt sx sy cv cu].
    simpl in Hb. subst bi.
    cbn [set_uploadedImages baseImageId]. rewrite Z.eqb_refl.
    destruct d as [[|] ? ?]; reflexivity.
  - apply Hnone. destruct s, d as [[|] ? ?]; reflexivity.
Qed.

(** X18.  [newImage.onload] does not look at [baseImageId]: an image whose
    decoding completes after the base image was taken away is installed all
    the same.  The canvas then has an image, and the export succeeds, while no
    image of the tray is the base image. *)
Theorem late_decode_installs_the_image
  (d d' : Dom) (s : State) (newImage : HTMLImageElement.t) :
  let s' := setBaseImage_onload toUpperCase newImage d' (setBaseImage_null d s) in
  image s' = Some newImage
  /\ baseImageId s' = None
  /\ fst (triggerMemeDownload toDataURL s') = true.
Proof.
  cbv zeta. unfold setBaseImage_onload.
  match goal with
  | |- context [redrawCanvas toUpperCase d' ?st] =>
      destruct (redrawCanvas_same_content toUpperCase d' st)
        as (Hi & _ & _ & Hb & _);
      assert (Hi0 : image st = Some newImage)
        by (destruct s, d as [[|] ? ?]; reflexivity);
      assert (Hb0 : baseImageId st = None)
        by (destruct s, d as [[|] ? ?]; reflexivity)
  end.
  rewrite Hi0 in Hi. rewrite Hb0 in Hb.
  split; [exact Hi|]. split; [exact Hb|].
  unfold triggerMemeDownload. rewrite Hi. reflexivity.
Qed.

End Removal.

(* ------------------------------------------------------------------------- *)
(** ** Where the texts are drawn, and where they are hit *)


Lemma Qc_sub_le (x y : Qc) : (Q2Qc 0 <= y)%Qc -> (x - y <= x)%Qc.
Proof.
  intros H. apply Qcle_minus_iff.
  replace (x + - (x - y))%Qc with y by ring. exact H.
Qed.

Lemma Qc_le_add (x y : Qc) : (Q2Qc 0 <= y)%Qc -> (x <= x + y)%Qc.
Proof.
  intros H. apply Qcle_minus_iff.
  replace (x + y + - x)%Qc with y by ring. exact H.
Qed.

Lemma Qc_scale_nonneg (y k : Qc) :
  (Q2Qc 0 <= y)%Qc -> (Q2Qc 0 <= k)%Qc -> (Q2Qc 0 <= y * k)%Qc.
Proof.
  intros Hy Hk. rewrite <- (Qcmult_0_l k). apply Qcmult_le_compat_r; assumption.
Qed.

Lemma leb_Fin (x y : Qc) : (x <= y)%Qc -> (Fin x <=? Fin y) = true.
Proof. intros H. apply leb_le. exact H. Qed.

Section Placement.

Variable toUpperCase : jsstring -> jsstring.
Variable measureText : number -> jsstring -> number.


(** X20.  A text is hit where it is drawn: with a context, a text that does
    not trim to the empty string, a finite anchor on a finite canvas, and a
    text width and a font size that are finite and not negative, the pointer
    at the pixel position of the anchor is over the text. *)
Theorem anchor_point_is_hit
  (d : Dom) (s : State) (text : jsstring) (a b W H tw fs : Qc) :
  ctx d = true -> trim text <> [] ->
  HTMLCanvasElement.width (canvas s) = Fin W ->
  HTMLCanvasElement.height (canvas s) = Fin H ->
  measureText (fontSize s) (toUpperCase text) = Fin tw -> (Q2Qc 0 <= tw)%Qc ->
  fontSize s = Fin fs -> (Q2Qc 0 <= fs)%Qc ->
  let p := {| rx := Fin a; ry := Fin b |} in
  isMouseOverText toUpperCase measureText d s
    (rx p * HTMLCanvasElement.width (canvas s))
    (ry p * HTMLCanvasElement.height (canvas s)) text (Some p) = true.
Proof.
  intros Hc Hne HW HH Htw Ptw Hfs Pfs. cbv zeta. unfold isMouseOverText.
  rewrite Hc. destruct (trim text) as [|c r] eqn:Et; [congruence|].
  cbn [negb is_empty orb rx ry]. rewrite Hfs in Htw. rewrite HW, HH, Hfs, Htw.
  assert (H2 : (Q2Qc 0 <= / Q2Qc 2)%Qc) by (apply Qcle_alt; vm_compute; discriminate).
  assert (H5 : (Q2Qc 0 <= Q2Qc (1 # 5))%Qc) by (apply Qcle_alt; vm_compute; discriminate).
  assert (Hhalf : Fin tw / n2 = Fin (tw * / Q2Qc 2)%Qc) by reflexivity.
  rewrite Hhalf. unfold geb. cbn [mul sub add neg].
  rewrite !andb_true_iff. repeat split; apply leb_Fin.
  - apply Qc_sub_le. apply Qc_scale_nonneg; assumption.
  - apply Qc_le_add. apply Qc_scale_nonneg; assumption.
  - apply Qc_sub_le. exact Pfs.
  - apply Qc_le_add. apply Qc_scale_nonneg; assumption.
Qed.

End Placement.

(* ------------------------------------------------------------------------- *)
(** ** More properties on the sample pages *)

Lemma pointer_up_then_moves_witness :
  forallb (fun de => is_move (snd de)) (moves page400 sampleWalk) = true
  /\ isDragging moved2 = true
  /\ isDragging
       (sampleRun ((page400, PointerUp) :: moves page400 sampleWalk) moved2) = false
  /\ topTextPosition
       (sampleRun ((page400, PointerUp) :: moves page400 sampleWalk) moved2)
     = topTextPosition moved2
  /\ canvas (sampleRun ((page400, PointerUp) :: moves page400 sampleWalk) moved2)
     = canvas moved2.
Proof.
  split; [reflexivity|]. split; [vm_compute; reflexivity|].
  destruct (pointer_up_then_moves_change_nothing sampleUpperCase sampleMeasureText
              page400 (moves page400 sampleWalk) moved2 eq_refl)
    as (Hd & Ht & _ & Hc & _).
  split; [exact Hd|]. split; [exact Ht|exact Hc].
Defined.

Lemma edits_keep_anchors_witness :
  forallb (fun de => is_edit (snd de)) sampleEdits = true
  /\ topTextPosition square400 = Some {| rx := n0_5; ry := lit 1 10 |}
  /\ fontSize (sampleRun sampleEdits square400) = of_Z 80
  /\ topTextPosition (sampleRun sampleEdits square400)
     = Some {| rx := n0_5; ry := lit 1 10 |}
  /\ bottomTextPosition (sampleRun sampleEdits square400)
     = bottomTextPosition square400.
Proof.
  assert (Ht : topTextPosition square400 = Some {| rx := n0_5; ry := lit 1 10 |})
    by anchor_eq.
  split; [reflexivity|]. split; [exact Ht|]. split; [num_eq|].
  exact (edits_keep_anchors sampleUpperCase sampleMeasureText sampleEdits
           square400 _ eq_refl Ht).
Defined.




Lemma base_is_never_a_source_witness :
  forallb (fun da => listens (snd da)) sampleActions = true
  /\ baseImageId (sampleRunActions sampleActions initial) = Some 1%Z
  /\ sourceImageIds (sampleRunActions sampleActions initial) = [2%Z]
  /\ (forall b,
      baseImageId (runActions sampleUpperCase sampleMeasureText sampleActions initial)
      = Some b ->
      ~ In b (sourceImageIds
                (runActions sampleUpperCase sampleMeasureText sampleActions initial)))
  /\ NoDup (sourceImageIds
              (runActions sampleUpperCase sampleMeasureText sampleActions initial)).
Proof.
  split; [reflexivity|]. split; [vm_compute; reflexivity|].
  split; [vm_compute; reflexivity|].
  exact (base_is_never_a_source sampleUpperCase sampleMeasureText sampleActions
           eq_refl).
Defined.

Lemma roles_refer_to_the_tray_witness :
  forallb (fun da => listens (snd da)) sampleActions = true
  /\ map id (uploadedImages (sampleRunActions sampleActions initial)) = [1%Z; 2%Z]
  /\ nextImageId (sampleRunActions sampleActions initial) = 3%Z
  /\ NoDup (map id (uploadedImages
                      (runActions sampleUpperCase sampleMeasureText sampleActions
                         initial)))
  /\ (forall b,
      baseImageId (runActions sampleUpperCase sampleMeasureText sampleActions initial)
      = Some b ->
      In b (map id (uploadedImages
                      (runActions sampleUpperCase sampleMeasureText sampleActions
                         initial)))).
Proof.
  split; [reflexivity|]. split; [vm_compute; reflexivity|].
  split; [vm_compute; reflexivity|].
  destruct (roles_refer_to_the_tray sampleUpperCase sampleMeasureText sampleActions
              eq_refl) as (H1 & _ & _ & H4).
  split; [exact H1|exact H4].
Defined.

Lemma thumbnail_cycle_witness :
  baseImageId trayOfTwo = Some 0%Z
  /\ sourceImageIds trayOfTwo = []
  /\ sourceImageIds (thumbnailClick page400 secondImage trayOfTwo)
     = sourceImageIds trayOfTwo ++ [id secondImage]
  /\ baseImageId
       (thumbnailClick page400 secondImage
          (thumbnailClick page400 secondImage trayOfTwo)) = Some (id secondImage)
  /\ baseImageId
       (thumbnailClick page400 secondImage
          (thumbnailClick page400 secondImage
             (thumbnailClick page400 secondImage trayOfTwo))) = None
  /\ sourceImageIds
       (thumbnailClick page400 secondImage
          (thumbnailClick page400 secondImage
             (thumbnailClick page400 secondImage trayOfTwo)))
     = sourceImageIds trayOfTwo.
Proof.
  assert (Hns : ~ In (id secondImage) (sourceImageIds trayOfTwo))
    by (intros H; vm_compute in H; exact H).
  assert (Hnb : baseImageId trayOfTwo <> Some (id secondImage))
    by (intros E; vm_compute in E; discriminate).
  destruct (thumbnail_cycle page400 page400 page400 secondImage trayOfTwo Hns Hnb)
    as ((S1 & _) & (_ & B2) & (S3 & B3 & _)).
  split; [vm_compute; reflexivity|]. split; [vm_compute; reflexivity|].
  split; [exact S1|]. split; [exact B2|]. split; [exact B3|exact S3].
Defined.

Lemma enabled_buttons_witness :
  forallb (fun da => listens (snd da)) sampleActions = true
  /\ combineDisabled
       (updateActionButtonsState true (js "doge")
          (runActions sampleUpperCase sampleMeasureText sampleActions initial))
     = false
  /\ combineGuard true (js "doge")
       (runActions sampleUpperCase sampleMeasureText sampleActions initial)
     = Proceeds
  /\ generateGuard true (js "doge") = Proceeds.
Proof.
  assert (Hen : combineDisabled
                  (updateActionButtonsState true (js "doge")
                     (runActions sampleUpperCase sampleMeasureText sampleActions
                        initial)) = false) by (vm_compute; reflexivity).
  assert (Hgen : generateDisabled
                   (updateActionButtonsState true (js "doge")
                      (runActions sampleUpperCase sampleMeasureText sampleActions
                         initial)) = false) by (vm_compute; reflexivity).
  destruct (enabled_buttons_pass_the_guards sampleUpperCase sampleMeasureText
              sampleActions true (js "doge") eq_refl) as (Hg & _ & _ & Hc).
  split; [reflexivity|]. split; [exact Hen|].
  split; [exact (Hc Hen)|exact (Hg Hgen)].
Defined.

Lemma no_raw_text_witness :
  getApiErrorMessage sampleLowerCase sampleUpperCase
    (ThrownObject (Some (Some (js "Quota exceeded"))) None StringifyThrows)
  = Some (js "Quota exceeded")
  /\ getApiErrorMessage sampleLowerCase sampleUpperCase
       (ThrownString (js "API Key Not Valid. Please pass a valid API key."))
     = Some apiKeyMessage
  /\ (js "Quota exceeded" = timedOutMessage
      \/ js "Quota exceeded" = apiKeyMessage
      \/ js "Quota exceeded" = safetyMessage
      \/ (includes (sampleLowerCase (js "Quota exceeded")) (js "api key not valid")
          = false
          /\ includes (sampleUpperCase (js "Quota exceeded")) (js "SAFETY") = false)).
Proof.
  assert (H : getApiErrorMessage sampleLowerCase sampleUpperCase
                (ThrownObject (Some (Some (js "Quota exceeded"))) None StringifyThrows)
              = Some (js "Quota exceeded")) by (vm_compute; reflexivity).
  split; [exact H|]. split; [vm_compute; reflexivity|].
  exact (no_raw_api_key_or_safety_text sampleLowerCase sampleUpperCase _ _ H).
Defined.

Lemma receiveParts_witness :
  Forall (fun q => inlineData q = None)
         [ {| inlineData := None; text := Some (js "Here you go") |} ]
  /\ snd (receiveParts sampleLowerCase sampleUpperCase true
            ([ {| inlineData := None; text := Some (js "Here you go") |} ]
             ++ {| inlineData := Some (js "image/png", js "DDDD"); text := None |}
                :: [ {| inlineData := None; text := Some (js "Enjoy") |} ])
            trayOfTwo) = None
  /\ baseImageId
       (fst (receiveParts sampleLowerCase sampleUpperCase true
               ([ {| inlineData := None; text := Some (js "Here you go") |} ]
                ++ {| inlineData := Some (js "image/png", js "DDDD"); text := None |}
                   :: [ {| inlineData := None; text := Some (js "Enjoy") |} ])
               trayOfTwo))
     = Some (nextImageId trayOfTwo)
  /\ nextImageId trayOfTwo = 2%Z
  /\ snd (receiveParts sampleLowerCase sampleUpperCase false
            [ {| inlineData := None; text := Some (js "Blocked for safety") |} ]
            trayOfTwo)
     = Some (js "Could not enhance image: " ++ safetyMessage).
Proof.
  assert (Hpre : Forall (fun q => inlineData q = None)
                   [ {| inlineData := None; text := Some (js "Here you go") |} ])
    by (apply Forall_cons; [reflexivity|apply Forall_nil]).
  destruct (receiveParts_first_image_wins sampleLowerCase sampleUpperCase true
              [ {| inlineData := None; text := Some (js "Here you go") |} ]
              [ {| inlineData := None; text := Some (js "Enjoy") |} ]
              {| inlineData := Some (js "image/png", js "DDDD"); text := None |}
              (js "image/png") (js "DDDD") trayOfTwo Hpre eq_refl)
    as (Ha & _ & _ & Hb & _).
  split; [exact Hpre|]. split; [exact Ha|]. split; [exact Hb|].
  split; vm_compute; reflexivity.
Defined.

Lemma handler_asks_upstream_witness :
  method getRequest <> js "POST"
  /\ handler sampleNumberToString JUndefined (js "Cannot destructure") upstreamOk
       getRequest
     = handler sampleNumberToString JUndefined (js "Cannot destructure") upstreamDown
         getRequest
  /\ status (handler sampleNumberToString JUndefined (js "Cannot destructure")
               upstreamOk getRequest) = 405%Z.
Proof.
  assert (Hm : method getRequest <> js "POST")
    by (intros E; vm_compute in E; discriminate).
  split; [exact Hm|]. split; [|reflexivity].
  apply handler_asks_upstream_only_for_prompts. left. exact Hm.
Defined.


Lemma anchor_point_witness :
  ctx page400 = true /\ trim (js "hi") <> []
  /\ Fin (Q2Qc (1 # 2)) * HTMLCanvasElement.width (canvas square400) = of_Z 200
  /\ isMouseOverText sampleUpperCase sampleMeasureText page400 square400
       (rx {| rx := Fin (Q2Qc (1 # 2)); ry := Fin (Q2Qc (1 # 10)) |}
        * HTMLCanvasElement.width (canvas square400))
       (ry {| rx := Fin (Q2Qc (1 # 2)); ry := Fin (Q2Qc (1 # 10)) |}
        * HTMLCanvasElement.height (canvas square400))
       (js "hi") (Some {| rx := Fin (Q2Qc (1 # 2)); ry := Fin (Q2Qc (1 # 10)) |})
     = true.
Proof.
  assert (Hne : trim (js "hi") <> []) by (vm_compute; discriminate).
  assert (HW : HTMLCanvasElement.width (canvas square400) = Fin (Q2Qc (400 # 1)))
    by num_eq.
  assert (HH : HTMLCanvasElement.height (canvas square400) = Fin (Q2Qc (400 # 1)))
    by num_eq.
  assert (Htw : sampleMeasureText (fontSize square400) (sampleUpperCase (js "hi"))
                = Fin (Q2Qc (40 # 1))) by num_eq.
  assert (Hfs : fontSize square400 = Fin (Q2Qc (40 # 1))) by num_eq.
  assert (P40 : (Q2Qc 0 <= Q2Qc (40 # 1))%Qc)
    by (apply Qcle_alt; vm_compute; discriminate).
  split; [reflexivity|]. split; [exact Hne|]. split; [num_eq|].
  exact (anchor_point_is_hit sampleUpperCase sampleMeasureText page400 square400
           (js "hi") (Q2Qc (1 # 2)) (Q2Qc (1 # 10)) (Q2Qc (400 # 1)) (Q2Qc (400 # 1))
           (Q2Qc (40 # 1)) (Q2Qc (40 # 1)) eq_refl Hne HW HH Htw P40 Hfs P40).
Defined.

Lemma thumbnailRemove_witness :
  map id (uploadedImages trayOfTwo) = [0%Z; 1%Z]
  /\ map id (uploadedImages (thumbnailRemove page400 secondImage trayOfTwo)) = [0%Z]
  /\ ~ In (id secondImage)
          (map id (uploadedImages (thumbnailRemove page400 secondImage trayOfTwo)))
  /\ baseImageId (thumbnailRemove page400 secondImage trayOfTwo) = Some 0%Z.
Proof.
  destruct (thumbnailRemove_leaves_no_trace page400 secondImage trayOfTwo)
    as (H1 & _ & _ & _ & _ & H6 & _).
  split; [vm_compute; reflexivity|]. split; [vm_compute; reflexivity|].
  split; [exact H1|].
  apply (H6 0%Z); [intros E; vm_compute in E; discriminate|vm_compute; reflexivity].
Defined.

Lemma handler_status_witness :
  status (handler sampleNumberToString JUndefined (js "Cannot destructure") upstreamOk
            getRequest) = 405%Z
  /\ status (handler sampleNumberToString JUndefined (js "Cannot destructure")
               upstreamOk {| method := js "POST"; body := body getRequest |}) = 200%Z
  /\ status (handler sampleNumberToString JUndefined (js "Cannot destructure")
               upstreamDown {| method := js "POST"; body := body getRequest |})
     = 500%Z
  /\ status (handler sampleNumberToString JUndefined (js "Cannot destructure")
               upstreamOk {| method := js "POST"; body := None |}) = 500%Z.
Proof.
  destruct (handler_status sampleNumberToString JUndefined (js "Cannot destructure")
              upstreamOk getRequest) as ((_ & H) & _).
  split; [apply H; intros E; vm_compute in E; discriminate|].
  split; [reflexivity|]. split; reflexivity.
Defined.

Lemma export_fails_witness :
  baseImageId (sampleRunActions sampleActions initial) = Some 1%Z
  /\ fst (triggerMemeDownload sampleToDataURL (sampleRunActions sampleActions initial))
     = true
  /\ triggerMemeDownload sampleToDataURL
       (removeImageClick page400 (sampleRunActions sampleActions initial))
     = (false, None).
Proof.
  assert (Hb : baseImageId (sampleRunActions sampleActions initial) = Some 1%Z)
    by (vm_compute; reflexivity).
  split; [exact Hb|]. split; [vm_compute; reflexivity|].
  destruct (export_fails_after_removal sampleToDataURL page400
              (sampleRunActions sampleActions initial)) as (H & _).
  exact (H 1%Z Hb).
Defined.
